(** * Verification of [packages/backend/src/scripts/stt.py]

    The script transcribes one WAV file with the Vosk engine and prints a
    JSON object.  This development embeds the script: the driver
    [transcribe_audio], the command-line entry point, and the library
    calls they make ([os.path], [wave], [vosk], [json]) as an environment
    the script runs against. *)

From Stdlib Require Import ZArith List String Ascii Bool Lia Arith.
From Stdlib.Strings Require Import Byte.
Import ListNotations.

Set Warnings "-register-all,-abstract-large-number".

Local Open Scope string_scope.
Local Open Scope Z_scope.

(** ** Python strings

    A [str] is a sequence of characters; a character of [string] stands
    for the code point of the same number (code points below 256). *)

Module PyStr.

(** [str.isspace] on one character, as [str.strip()] uses it:
    code points 9-13, 28-32, 133 and 160. *)
Definition is_space (c : ascii) : bool :=
  let n := nat_of_ascii c in
  ((9 <=? n) && (n <=? 13) || (28 <=? n) && (n <=? 32)
   || (n =? 133) || (n =? 160))%nat.

Fixpoint lstrip (s : string) : string :=
  match s with
  | EmptyString => EmptyString
  | String c s' => if is_space c then lstrip s' else s
  end.

(** [rstrip]: a character is dropped when it is white space and
    everything after it has been dropped. *)
Fixpoint rstrip (s : string) : string :=
  match s with
  | EmptyString => EmptyString
  | String c s' =>
      match rstrip s' with
      | EmptyString => if is_space c then EmptyString else String c EmptyString
      | r => String c r
      end
  end.

(** [s.strip()] *)
Definition strip (s : string) : string := rstrip (lstrip s).

(** [sep.join(l)] for a list of [str]. *)
Fixpoint join (sep : string) (l : list string) : string :=
  match l with
  | [] => EmptyString
  | [x] => x
  | x :: l' => x ++ sep ++ join sep l'
  end.

(** [str(n)] for a natural number. *)
Definition digit (n : nat) : ascii := ascii_of_nat (48 + n).

Fixpoint of_nat_aux (fuel n : nat) (acc : string) : string :=
  match fuel with
  | O => acc
  | S fuel' =>
      let acc' := String (digit (n mod 10)) acc in
      if (n / 10 =? 0)%nat then acc' else of_nat_aux fuel' (n / 10) acc'
  end.

Definition of_nat (n : nat) : string := of_nat_aux (S n) n EmptyString.

(** The double quote character, as a one-character string. *)
Definition dquote : string := String "034"%char EmptyString.

(** The single quote character, as a one-character string. *)
Definition squote : string := String "039"%char EmptyString.

End PyStr.

(** ** Exceptions

    The exceptions that the library calls of the script raise, and the two
    the script's own expressions can raise.  All of them are instances of
    [Exception]; [SystemExit], which [sys.exit] raises and which is not an
    instance of [Exception], is a separate outcome (see [outcome]). *)

Inductive exc_class : Type :=
| Exception_          (* vosk: "Failed to create a model", ... *)
| OSError_            (* open(): missing file, permissions, I/O *)
| EOFError_           (* wave: truncated header *)
| wave_Error          (* wave: not a RIFF/WAVE file *)
| JSONDecodeError_    (* json.loads *)
| UnicodeDecodeError_ (* decoding the engine's output *)
| AttributeError_     (* x.get on an object that is not a dict *)
| KeyError_           (* d[k] for a missing key *)
| TypeError_          (* str.join on an item that is not a str *)
| MemoryError_.

Record pyexc : Type := mk_exc {
  exc_cls : exc_class;
  exc_str : string      (* str(e) *)
}.

(** ** Values

    What [json.loads] returns. *)

Inductive float_kind : Type := FZero | FNonZero | FNaN.

Inductive jsonval : Type :=
| JNull
| JBool (b : bool)
| JInt (z : Z)
| JFloat (k : float_kind)
| JStr (s : string)
| JList (l : list jsonval)
| JDict (d : list (string * jsonval)).

(** [type(v).__name__] *)
Definition type_name (v : jsonval) : string :=
  match v with
  | JNull => "NoneType"
  | JBool _ => "bool"
  | JInt _ => "int"
  | JFloat _ => "float"
  | JStr _ => "str"
  | JList _ => "list"
  | JDict _ => "dict"
  end.

(** [bool(v)], the test of [if v:]. *)
Definition truthy (v : jsonval) : bool :=
  match v with
  | JNull => false
  | JBool b => b
  | JInt z => negb (z =? 0)
  | JFloat FZero => false
  | JFloat _ => true
  | JStr s => negb (String.eqb s "")
  | JList l => match l with [] => false | _ => true end
  | JDict d => match d with [] => false | _ => true end
  end.

(** Lookup of a key in a dict kept as an association list. *)
Fixpoint lookup {V : Type} (k : string) (d : list (string * V)) : option V :=
  match d with
  | [] => None
  | (k', v) :: d' => if String.eqb k k' then Some v else lookup k d'
  end.

(** ** The result dict

    The dicts the script builds hold a [bool] and a [str]. *)

Inductive field : Type :=
| FBool (b : bool)
| FStr (s : string).

Definition dict : Type := list (string * field).

(** [{"success": True, "text": text}] *)
Definition success_result (text : string) : dict :=
  [("success", FBool true); ("text", FStr text)].

(** [{"success": False, "error": msg}] *)
Definition failure_result (msg : string) : dict :=
  [("success", FBool false); ("error", FStr msg)].

(** ** [json.dumps] on a result dict (default options: [ensure_ascii],
    separators [", "] and [": "]). *)

Module Json.

Definition hex_digit (n : nat) : ascii :=
  if (n <? 10)%nat then ascii_of_nat (48 + n) else ascii_of_nat (87 + n).

(** [\u00XX] *)
Definition u_escape (n : nat) : string :=
  "\u00" ++ String (hex_digit (n / 16)) (String (hex_digit (n mod 16)) "").

(** One character of [py_encode_basestring_ascii]. *)
Definition escape_char (c : ascii) : string :=
  let n := nat_of_ascii c in
  if (n =? 34)%nat then "\" ++ PyStr.dquote
  else if (n =? 92)%nat then "\\"
  else if (n =? 10)%nat then "\n"
  else if (n =? 13)%nat then "\r"
  else if (n =? 9)%nat then "\t"
  else if (n =? 8)%nat then "\b"
  else if (n =? 12)%nat then "\f"
  else if ((32 <=? n) && (n <=? 126))%nat then String c ""
  else u_escape n.

Fixpoint escape (s : string) : string :=
  match s with
  | EmptyString => EmptyString
  | String c s' => escape_char c ++ escape s'
  end.

Definition quote (s : string) : string :=
  PyStr.dquote ++ escape s ++ PyStr.dquote.

Definition dump_field (v : field) : string :=
  match v with
  | FBool true => "true"
  | FBool false => "false"
  | FStr s => quote s
  end.

Definition dump_item (kv : string * field) : string :=
  quote (fst kv) ++ ": " ++ dump_field (snd kv).

(** [json.dumps(d)] *)
Definition dumps (d : dict) : string :=
  "{" ++ PyStr.join ", " (map dump_item d) ++ "}".

End Json.

(** ** The audio file

    A [Wave_read] object: the header fields the script asks for and the
    bytes of the data chunk not yet read. *)

Record wave_read : Type := mk_wave {
  nchannels : Z;
  sampwidth : Z;
  framerate : Z;
  frames : list byte
}.

(** ** The environment

    What the script finds outside itself: the file system, the [wave]
    module, the Vosk engine (its model and recognizer are opaque) and
    [json.loads].  A call that can raise returns [inl e]. *)

Record environ : Type := mk_env {
  expanduser : string -> string;
  path_exists : string -> bool;
  wave_open : string -> pyexc + wave_read;
  model : Type;
  recognizer : Type;
  Model : string -> pyexc + model;
  KaldiRecognizer : model -> Z -> pyexc + recognizer;
  SetWords : recognizer -> bool -> recognizer;
  AcceptWaveform : recognizer -> list byte -> pyexc + (Z * recognizer);
  Result : recognizer -> pyexc + (string * recognizer);
  FinalResult : recognizer -> pyexc + (string * recognizer);
  json_loads : string -> pyexc + jsonval
}.

(** ** Process state

    The audio files opened and not yet closed by a call of [close()], the
    calls made to the outside so far (oldest first) and the lines printed
    on standard output.  What the finalisers of the objects do when the
    frame of a call dies is added in [Lifetime] below. *)

Inductive event : Type :=
| EvExists (p : string)
| EvModel (p : string)
| EvWaveOpen (p : string)
| EvKaldiRecognizer (rate : Z)
| EvSetWords (b : bool)
| EvReadFrames (n : Z)
| EvAcceptWaveform (len : nat)
| EvResult
| EvFinalResult
| EvWaveClose (p : string).

Record pstate : Type := mk_state {
  st_open : list string;
  st_log : list event;
  st_stdout : list string
}.

Definition initial_state : pstate := mk_state [] [] [].

(** ** The monad of the script

    A computation ends by returning, by raising an [Exception], by
    [sys.exit] or, in the model only, by exhausting the bound given to a
    loop. *)

Inductive outcome (A : Type) : Type :=
| Ret (a : A)
| Raise (e : pyexc)
| Exit (code : Z)
| OutOfFuel.

Arguments Ret {A} a.
Arguments Raise {A} e.
Arguments Exit {A} code.
Arguments OutOfFuel {A}.

Definition M (A : Type) : Type := pstate -> outcome A * pstate.

Definition ret {A} (a : A) : M A := fun s => (Ret a, s).

Definition bind {A B} (m : M A) (k : A -> M B) : M B :=
  fun s =>
    match m s with
    | (Ret a, s') => k a s'
    | (Raise e, s') => (Raise e, s')
    | (Exit c, s') => (Exit c, s')
    | (OutOfFuel, s') => (OutOfFuel, s')
    end.

Definition raise {A} (e : pyexc) : M A := fun s => (Raise e, s).

(** [sys.exit(code)] *)
Definition sys_exit {A} (code : Z) : M A := fun s => (Exit code, s).

Definition out_of_fuel {A} : M A := fun s => (OutOfFuel, s).

(** [try: body  except Exception as e: handler(e)] *)
Definition try_except {A} (body : M A) (handler : pyexc -> M A) : M A :=
  fun s =>
    match body s with
    | (Raise e, s') => handler e s'
    | r => r
    end.

Definition log (ev : event) : M unit :=
  fun s => (Ret tt, mk_state (st_open s) (st_log s ++ [ev]) (st_stdout s)).

(** A library call: [inl e] raises [e]. *)
Definition lift {A} (r : pyexc + A) : M A :=
  match r with
  | inl e => raise e
  | inr a => ret a
  end.

Declare Scope py_scope.
Delimit Scope py_scope with py.
Notation "x <- m ;; k" := (bind m (fun x => k))
  (at level 61, m at next level, right associativity) : py_scope.
Notation "' pat <- m ;; k" := (bind m (fun x => match x with pat => k end))
  (at level 61, pat pattern, m at next level, right associativity) : py_scope.
Notation "m ;;; k" := (bind m (fun _ => k))
  (at level 61, right associativity) : py_scope.

Local Open Scope py_scope.

(** [print(line)] *)
Definition print (line : string) : M unit :=
  fun s => (Ret tt, mk_state (st_open s) (st_log s) (st_stdout s ++ [line])).

(** Removal of the first occurrence of a path among the open files. *)
Fixpoint remove_first (p : string) (l : list string) : list string :=
  match l with
  | [] => []
  | q :: l' => if String.eqb p q then l' else q :: remove_first p l'
  end.

Section Script.

Variable env : environ.

(** [os.path.exists(p)] *)
Definition os_path_exists (p : string) : M bool :=
  log (EvExists p) ;;; ret (path_exists env p).

(** [MODEL_PATH] *)
Definition MODEL_PATH : string :=
  expanduser env "~/.local/share/vosk/vosk-model-small-en-us-0.15".

(** [Model(p)] *)
Definition new_Model (p : string) : M (model env) :=
  log (EvModel p) ;;; lift (Model env p).

(** [wave.open(p, "rb")]: on success the file is open. *)
Definition wave_open_rb (p : string) : M wave_read :=
  log (EvWaveOpen p) ;;;
  wf <- lift (wave_open env p) ;;
  (fun s => (Ret wf, mk_state (p :: st_open s) (st_log s) (st_stdout s))).

(** [wf.close()] for the file opened at [p]. *)
Definition wave_close (p : string) : M unit :=
  log (EvWaveClose p) ;;;
  (fun s => (Ret tt, mk_state (remove_first p (st_open s)) (st_log s) (st_stdout s))).

(** [wf.readframes(n)]: at most [n] frames of [nchannels * sampwidth]
    bytes each, taken from the data that is left. *)
Definition readframes (wf : wave_read) (n : Z) : M (list byte * wave_read) :=
  log (EvReadFrames n) ;;;
  let size := Z.to_nat (n * (nchannels wf * sampwidth wf)) in
  ret (firstn size (frames wf),
       mk_wave (nchannels wf) (sampwidth wf) (framerate wf) (skipn size (frames wf))).

(** [KaldiRecognizer(model, rate)] *)
Definition new_KaldiRecognizer (m : model env) (rate : Z) : M (recognizer env) :=
  log (EvKaldiRecognizer rate) ;;; lift (KaldiRecognizer env m rate).

(** [rec.SetWords(b)] *)
Definition rec_SetWords (r : recognizer env) (b : bool) : M (recognizer env) :=
  log (EvSetWords b) ;;; ret (SetWords env r b).

(** [rec.AcceptWaveform(data)] *)
Definition rec_AcceptWaveform (r : recognizer env) (data : list byte)
  : M (Z * recognizer env) :=
  log (EvAcceptWaveform (List.length data)) ;;; lift (AcceptWaveform env r data).

(** [rec.Result()] *)
Definition rec_Result (r : recognizer env) : M (string * recognizer env) :=
  log EvResult ;;; lift (Result env r).

(** [rec.FinalResult()] *)
Definition rec_FinalResult (r : recognizer env) : M (string * recognizer env) :=
  log EvFinalResult ;;; lift (FinalResult env r).

(** [v.get(k)] *)
Definition py_get (v : jsonval) (k : string) : M jsonval :=
  match v with
  | JDict d => ret (match lookup k d with Some x => x | None => JNull end)
  | _ => raise (mk_exc AttributeError_
                  (PyStr.squote ++ type_name v ++ PyStr.squote
                   ++ " object has no attribute " ++ PyStr.squote ++ "get" ++ PyStr.squote))
  end.

(** [v[k]] for a string key *)
Definition py_getitem (v : jsonval) (k : string) : M jsonval :=
  match v with
  | JDict d =>
      match lookup k d with
      | Some x => ret x
      | None => raise (mk_exc KeyError_ (PyStr.squote ++ k ++ PyStr.squote))
      end
  | JStr _ =>
      raise (mk_exc TypeError_ "string indices must be integers, not 'str'")
  | JList _ =>
      raise (mk_exc TypeError_ "list indices must be integers or slices, not str")
  | _ => raise (mk_exc TypeError_
                  (PyStr.squote ++ type_name v ++ PyStr.squote
                   ++ " object is not subscriptable"))
  end.

(** The items of [results] as [str], or the first one that is not. *)
Fixpoint all_str (i : nat) (l : list jsonval) : (nat * jsonval) + list string :=
  match l with
  | [] => inr []
  | JStr s :: l' =>
      match all_str (S i) l' with
      | inr ss => inr (s :: ss)
      | inl bad => inl bad
      end
  | v :: _ => inl (i, v)
  end.

(** [sep.join(results)] *)
Definition str_join (sep : string) (l : list jsonval) : M string :=
  match all_str 0 l with
  | inr ss => ret (PyStr.join sep ss)
  | inl (i, v) =>
      raise (mk_exc TypeError_
               ("sequence item " ++ PyStr.of_nat i ++ ": expected str instance, "
                ++ type_name v ++ " found"))
  end.

End Script.

(** ** The driver and the command line *)

Section Driver.

Variable env : environ.

(** The [while True:] loop of [transcribe_audio], on the loop's
    variables [wf], [rec] and [results].  [fuel] bounds the number of
    iterations. *)
Fixpoint read_loop (fuel : nat) (wf : wave_read) (rec : recognizer env)
    (results : list jsonval) : M (wave_read * recognizer env * list jsonval) :=
  match fuel with
  | O => out_of_fuel
  | S fuel' =>
      '(data, wf1) <- readframes wf 4000 ;;
      if (List.length data =? 0)%nat then ret (wf1, rec, results)
      else
        '(accepted, rec1) <- rec_AcceptWaveform env rec data ;;
        if negb (accepted =? 0) then
          '(s, rec2) <- rec_Result env rec1 ;;
          result <- lift (json_loads env s) ;;
          t <- py_get result "text" ;;
          if truthy t then
            x <- py_getitem result "text" ;;
            read_loop fuel' wf1 rec2 (results ++ [x])%list
          else read_loop fuel' wf1 rec2 results
        else read_loop fuel' wf1 rec1 results
  end.

(** The statements of [transcribe_audio] after the loop: the final
    result, [wf.close()], the join and the [return]. *)
Definition transcribe_finish (audio_path : string) (rec : recognizer env)
    (results : list jsonval) : M dict :=
  '(s, rec) <- rec_FinalResult env rec ;;
  final <- lift (json_loads env s) ;;
  t <- py_get final "text" ;;
  results <- (if truthy t
              then x <- py_getitem final "text" ;; ret (results ++ [x])%list
              else ret results) ;;
  wave_close audio_path ;;;
  text <- str_join " " results ;;
  ret (success_result (PyStr.strip text)).

(** The body of the [try:] of [transcribe_audio].  The loop is given one
    iteration per byte of audio data and one more: every iteration but
    the last consumes at least one byte. *)
Definition transcribe_body (audio_path : string) : M dict :=
  found <- os_path_exists env (MODEL_PATH env) ;;
  if negb found then ret (failure_result "Vosk model not found")
  else
    model <- new_Model env (MODEL_PATH env) ;;
    wf <- wave_open_rb env audio_path ;;
    if negb (nchannels wf =? 1) then ret (failure_result "Audio must be mono")
    else
      rec <- new_KaldiRecognizer env model (framerate wf) ;;
      rec <- rec_SetWords env rec true ;;
      '(wf, rec, results) <- read_loop (S (List.length (frames wf))) wf rec [] ;;
      transcribe_finish audio_path rec results.

(** [transcribe_audio(audio_path)] *)
Definition transcribe_audio (audio_path : string) : M dict :=
  try_except (transcribe_body audio_path)
             (fun e => ret (failure_result (exc_str e))).

(** The [if __name__ == "__main__":] block, [argv] being [sys.argv]. *)
Definition main (argv : list string) : M unit :=
  if negb (List.length argv =? 2)%nat then
    print (Json.dumps (failure_result "Usage: stt.py <audio_file>")) ;;;
    sys_exit 1
  else
    let audio_file := nth 1 argv "" in
    found <- os_path_exists env audio_file ;;
    if negb found then
      print (Json.dumps (failure_result ("File not found: " ++ audio_file))) ;;;
      sys_exit 1
    else
      result <- transcribe_audio audio_file ;;
      print (Json.dumps result).

(** The exit status of the process: 0 at the end of the script, the
    argument of [sys.exit], 1 for an exception nobody caught. *)
Definition exit_status (o : outcome unit) : option Z :=
  match o with
  | Ret _ => Some 0
  | Exit c => Some c
  | Raise _ => Some 1
  | OutOfFuel => None
  end.

(** Running the script from a fresh process. *)
Definition run_script (argv : list string) : option Z * pstate :=
  let (o, s) := main argv initial_state in (exit_status o, s).

End Driver.

(** ** The transcript in the words of the specification

    Steps 5 to 8 of the driver's algorithm, written on the list of chunks
    of the audio data and without the process state. *)

Section Spec.

Variable env : environ.

(** The audio data cut in chunks of [size] bytes, the last one possibly
    shorter. *)
Fixpoint chunks_of (size : nat) (fuel : nat) (data : list byte) : list (list byte) :=
  match fuel with
  | O => []
  | S fuel' =>
      match firstn size data with
      | [] => []
      | c => c :: chunks_of size fuel' (skipn size data)
      end
  end.

(** The chunks of 4000 frames of an audio file. *)
Definition spec_chunks (wf : wave_read) : list (list byte) :=
  chunks_of (Z.to_nat (4000 * (nchannels wf * sampwidth wf)))
            (List.length (frames wf)) (frames wf).

(** The text of a parsed recognizer result, when it is not empty. *)
Definition spec_text (v : jsonval) : option (list jsonval) :=
  match v with
  | JDict d =>
      match lookup "text" d with
      | Some t => Some (if truthy t then [t] else [])
      | None => Some []
      end
  | _ => None
  end.

(** Step 5: feed each chunk; at an endpoint, parse the partial result
    and keep its text. *)
Fixpoint spec_feed (rec : recognizer env) (cs : list (list byte))
  : option (list jsonval * recognizer env) :=
  match cs with
  | [] => Some ([], rec)
  | c :: cs' =>
      match AcceptWaveform env rec c with
      | inl _ => None
      | inr (accepted, rec1) =>
          if accepted =? 0 then spec_feed rec1 cs'
          else
            match Result env rec1 with
            | inl _ => None
            | inr (s, rec2) =>
                match json_loads env s with
                | inl _ => None
                | inr v =>
                    match spec_text v, spec_feed rec2 cs' with
                    | Some seg, Some (segs, r) => Some ((seg ++ segs)%list, r)
                    | _, _ => None
                    end
                end
            end
      end
  end.

(** Step 6: the final flush. *)
Definition spec_flush (rec : recognizer env) : option (list jsonval) :=
  match FinalResult env rec with
  | inl _ => None
  | inr (s, _) =>
      match json_loads env s with
      | inl _ => None
      | inr v => spec_text v
      end
  end.

(** Steps 5 and 6: the accumulated segments, in recognition order, the
    final flush last. *)
Definition spec_segments (rec : recognizer env) (wf : wave_read)
  : option (list jsonval) :=
  match spec_feed rec (spec_chunks wf) with
  | None => None
  | Some (segs, rec') =>
      match spec_flush rec' with
      | None => None
      | Some fin => Some (segs ++ fin)%list
      end
  end.

(** Step 8: joined with single spaces and trimmed. *)
Definition spec_transcript (segs : list string) : string :=
  PyStr.strip (PyStr.join " " segs).

End Spec.

(** ** The shape of a result *)

Definition has_key (k : string) (d : dict) : bool :=
  match lookup k d with Some _ => true | None => false end.

(** A boolean ["success"], and ["text"] without ["error"] when it is true,
    ["error"] without ["text"] when it is false. *)
Definition well_shaped (d : dict) : bool :=
  match lookup "success" d with
  | Some (FBool true) => has_key "text" d && negb (has_key "error" d)
  | Some (FBool false) => has_key "error" d && negb (has_key "text" d)
  | _ => false
  end.

(** ** A small environment to run the script in

    A home directory with four audio files, and an engine that hears the
    word "lights" in a chunk that starts with byte 01, "on" in one that
    starts with byte 02, fails on one that starts with byte ff and takes
    any other chunk for silence, which ends the utterance in progress. *)

Module Sample.

Definition home : string := "/home/pi".

Definition sample_expanduser (p : string) : string :=
  match p with
  | String "~"%char rest => home ++ rest
  | _ => p
  end.

Definition model_dir : string :=
  "/home/pi/.local/share/vosk/vosk-model-small-en-us-0.15".

Inductive model_state : Type := Installed | Missing | Corrupt.

Definition speech_data : list byte :=
  (repeat x01 8000 ++ repeat x02 8000 ++ repeat x00 8000 ++ repeat x01 100)%list.

Definition sample_wave_open (p : string) : pyexc + wave_read :=
  if String.eqb p "speech.wav" then inr (mk_wave 1 2 16000 speech_data)
  else if String.eqb p "silence.wav" then inr (mk_wave 1 2 16000 (repeat x00 12000))
  else if String.eqb p "stereo.wav" then inr (mk_wave 2 2 44100 (repeat x01 64))
  else if String.eqb p "broken.wav" then
    inr (mk_wave 1 2 16000 (repeat x01 8000 ++ repeat xff 10)%list)
  else if String.eqb p "notes.txt" then
    inl (mk_exc wave_Error "file does not start with RIFF id")
  else inl (mk_exc OSError_
              ("[Errno 2] No such file or directory: "
               ++ PyStr.squote ++ p ++ PyStr.squote)).

Definition sample_exists (ms : model_state) (p : string) : bool :=
  if String.eqb p model_dir
  then match ms with Missing => false | _ => true end
  else String.eqb p "speech.wav" || String.eqb p "silence.wav"
       || String.eqb p "stereo.wav" || String.eqb p "broken.wav"
       || String.eqb p "notes.txt".

Definition sample_Model (ms : model_state) (p : string) : pyexc + unit :=
  match ms with
  | Installed => inr tt
  | _ => inl (mk_exc Exception_ "Failed to create a model")
  end.

(** The recognizer's state: the words of the utterance in progress. *)
Definition sample_accept (r : list string) (data : list byte)
  : pyexc + (Z * list string) :=
  match data with
  | x01 :: _ => inr (0, (r ++ ["lights"])%list)
  | x02 :: _ => inr (0, (r ++ ["on"])%list)
  | xff :: _ => inl (mk_exc Exception_ "Failed to process waveform")
  | _ => inr (match r with [] => 0 | _ => 1 end, r)
  end.

Definition text_open : string :=
  "{" ++ PyStr.dquote ++ "text" ++ PyStr.dquote ++ ": " ++ PyStr.dquote.

Definition text_close : string := PyStr.dquote ++ "}".

Definition sample_result (r : list string) : pyexc + (string * list string) :=
  inr (text_open ++ PyStr.join " " r ++ text_close, []).

(** [json.loads] on the objects this engine emits: one key, ["text"],
    with a string of letters and spaces. *)
Definition sample_loads (s : string) : pyexc + jsonval :=
  let n := String.length s in
  let a := String.length text_open in
  let b := String.length text_close in
  if (a + b <=? n)%nat
     && String.eqb (substring 0 a s) text_open
     && String.eqb (substring (n - b) b s) text_close
  then inr (JDict [("text", JStr (substring a (n - a - b) s))])
  else inl (mk_exc JSONDecodeError_ "Expecting value: line 1 column 1 (char 0)").

Definition sample_env (ms : model_state) : environ :=
  {| expanduser := sample_expanduser;
     path_exists := sample_exists ms;
     wave_open := sample_wave_open;
     model := unit;
     recognizer := list string;
     Model := sample_Model ms;
     KaldiRecognizer := fun _ _ => inr [];
     SetWords := fun r _ => r;
     AcceptWaveform := sample_accept;
     Result := sample_result;
     FinalResult := sample_result;
     json_loads := sample_loads |}.

End Sample.


(** What a computation leaves of the process state when it only talks to
    the recognizer: the open files and the output are untouched. *)
Definition same_resources (st st' : pstate) : Prop :=
  st_open st' = st_open st /\ st_stdout st' = st_stdout st.

(** ** What the driver returns

    The three [return] statements of the [try:] block, each with the
    condition under which it is reached. *)
Inductive body_returns (env : environ) (audio_path : string) : dict -> Prop :=
| returns_no_model :
    path_exists env (MODEL_PATH env) = false ->
    body_returns env audio_path (failure_result "Vosk model not found")
| returns_not_mono (m : model env) (wf : wave_read) :
    path_exists env (MODEL_PATH env) = true ->
    Model env (MODEL_PATH env) = inr m ->
    wave_open env audio_path = inr wf ->
    nchannels wf <> 1 ->
    body_returns env audio_path (failure_result "Audio must be mono")
| returns_transcript (m : model env) (wf : wave_read) (r : recognizer env)
    (segs : list string) :
    path_exists env (MODEL_PATH env) = true ->
    Model env (MODEL_PATH env) = inr m ->
    wave_open env audio_path = inr wf ->
    nchannels wf = 1 ->
    KaldiRecognizer env m (framerate wf) = inr r ->
    spec_segments env (SetWords env r true) wf = Some (map JStr segs) ->
    body_returns env audio_path (success_result (spec_transcript segs)).

(** The line printed for a wrong number of arguments, character by
    character. *)
Definition usage_line : string :=
  "{" ++ PyStr.dquote ++ "success" ++ PyStr.dquote ++ ": false, "
  ++ PyStr.dquote ++ "error" ++ PyStr.dquote ++ ": "
  ++ PyStr.dquote ++ "Usage: stt.py <audio_file>" ++ PyStr.dquote ++ "}".

(** The events logged by a run that started in [st] and ended in [st']. *)
Definition new_events (st st' : pstate) : list event :=
  skipn (List.length (st_log st)) (st_log st').

(** The lengths of the chunks handed to [rec.AcceptWaveform], as the log
    has them. *)
Fixpoint accepted_lengths (evs : list event) : list nat :=
  match evs with
  | [] => []
  | EvAcceptWaveform n :: evs' => n :: accepted_lengths evs'
  | _ :: evs' => accepted_lengths evs'
  end.

(** A character that a terminal shows as itself on one line: code points
    32 to 126. *)
Definition printable (c : ascii) : bool :=
  ((32 <=? nat_of_ascii c) && (nat_of_ascii c <=? 126))%nat.

(** Every character of a string is [printable]. *)
Fixpoint all_printable (s : string) : bool :=
  match s with
  | EmptyString => true
  | String c s' => printable c && all_printable s'
  end.

(** The number of bytes [wf.readframes(4000)] asks for. *)
Definition chunk_size (wf : wave_read) : nat :=
  Z.to_nat (4000 * (nchannels wf * sampwidth wf)).

(** What a run of the read loop from [wf] and [st] has done when it ends
    in [r]: the open files and the output are as before, no file was
    closed, every chunk accepted had between one byte and 4000 frames, and
    on a normal end the next read would be empty and the chunks accepted
    are, byte for byte in number, what was read. *)
Definition loop_post {A : Type} (wf : wave_read) (st : pstate)
    (r : outcome (wave_read * A * list jsonval) * pstate) : Prop :=
  st_open (snd r) = st_open st
  /\ st_stdout (snd r) = st_stdout st
  /\ exists evs,
      st_log (snd r) = (st_log st ++ evs)%list
      /\ (forall p, ~ In (EvWaveClose p) evs)
      /\ Forall (fun n => (1 <= n <= chunk_size wf)%nat) (accepted_lengths evs)
      /\ match fst r with
         | Ret (wf', _, _) =>
             firstn (chunk_size wf) (frames wf') = []
             /\ (list_sum (accepted_lengths evs) + List.length (frames wf')
                 = List.length (frames wf))%nat
         | _ => True
         end.

(** An environment with another [json.loads]. *)
Definition with_json_loads (env : environ)
    (loads : string -> pyexc + jsonval) : environ :=
  {| expanduser := expanduser env;
     path_exists := path_exists env;
     wave_open := wave_open env;
     model := model env;
     recognizer := recognizer env;
     Model := Model env;
     KaldiRecognizer := KaldiRecognizer env;
     SetWords := SetWords env;
     AcceptWaveform := AcceptWaveform env;
     Result := Result env;
     FinalResult := FinalResult env;
     json_loads := loads |}.

(** An environment where every path opens as the audio file [wf]. *)
Definition with_audio (env : environ) (wf : wave_read) : environ :=
  {| expanduser := expanduser env;
     path_exists := path_exists env;
     wave_open := fun _ => inr wf;
     model := model env;
     recognizer := recognizer env;
     Model := Model env;
     KaldiRecognizer := KaldiRecognizer env;
     SetWords := SetWords env;
     AcceptWaveform := AcceptWaveform env;
     Result := Result env;
     FinalResult := FinalResult env;
     json_loads := json_loads env |}.

(** A character that [json.dumps] writes as itself: printable, and
    neither the double quote nor the backslash. *)
Definition plain (c : ascii) : bool :=
  printable c && negb (nat_of_ascii c =? 34)%nat
  && negb (nat_of_ascii c =? 92)%nat.

(** Every character of a string is [plain]. *)
Fixpoint all_plain (s : string) : bool :=
  match s with
  | EmptyString => true
  | String c s' => plain c && all_plain s'
  end.

(** The line printed for a missing file, character by character. *)
Definition file_not_found_line (audio_file : string) : string :=
  "{" ++ PyStr.dquote ++ "success" ++ PyStr.dquote ++ ": false, "
  ++ PyStr.dquote ++ "error" ++ PyStr.dquote ++ ": "
  ++ PyStr.dquote ++ "File not found: " ++ audio_file ++ PyStr.dquote ++ "}".

(** ** Object lifetimes

    [transcribe_audio] binds three objects that own a resource: the
    [Model] and the [KaldiRecognizer], each with a native handle that the
    object's finaliser frees, and the [Wave_read], whose file is closed by
    [close()] and, where that was not called, by the finaliser
    ([Wave_read.__del__] calls [close()]).  The function neither stores
    nor returns any of them, so they die with the frame of the call.

    [st_open] above records the files opened and not yet closed by a call
    of [close()]; what follows runs the function together with its frame:
    the locals that are bound, the native handles that are alive, and the
    finalisers that run when the function returns. *)

Module Lifetime.

(** A native handle of the engine. *)
Inductive native : Type :=
| ModelHandle (p : string)
| RecognizerHandle (rate : Z).

Definition native_eqb (a b : native) : bool :=
  match a, b with
  | ModelHandle p, ModelHandle q => String.eqb p q
  | RecognizerHandle r, RecognizerHandle s => Z.eqb r s
  | _, _ => false
  end.

(** Freeing a handle: its first occurrence among the live ones goes. *)
Fixpoint free (h : native) (l : list native) : list native :=
  match l with
  | [] => []
  | x :: l' => if native_eqb h x then l' else x :: free h l'
  end.

(** The locals of [transcribe_audio] that hold an object with a
    finaliser; [None] is an unbound name.  For [wf], the path of the
    [Wave_read] and whether [close()] has been called on it. *)
Record frame : Type := mk_frame {
  f_model : option native;
  f_wf : option (string * bool);
  f_rec : option native
}.

Definition no_locals : frame := mk_frame None None None.

(** The process, the native handles alive, and the frame of the call. *)
Record lstate : Type := mk_lstate {
  l_proc : pstate;
  l_natives : list native;
  l_frame : frame
}.

Definition LM (A : Type) : Type := lstate -> outcome A * lstate.

Definition lret {A} (a : A) : LM A := fun ls => (Ret a, ls).

Definition lbind {A B} (m : LM A) (k : A -> LM B) : LM B :=
  fun ls =>
    match m ls with
    | (Ret a, ls') => k a ls'
    | (Raise e, ls') => (Raise e, ls')
    | (Exit c, ls') => (Exit c, ls')
    | (OutOfFuel, ls') => (OutOfFuel, ls')
    end.

(** [try: body  except Exception as e: handler(e)] *)
Definition ltry_except {A} (body : LM A) (handler : pyexc -> LM A) : LM A :=
  fun ls =>
    match body ls with
    | (Raise e, ls') => handler e ls'
    | r => r
    end.

(** A computation of the script, run on the process of the state. *)
Definition in_proc {A} (m : M A) : LM A :=
  fun ls =>
    let (o, s') := m (l_proc ls) in
    (o, mk_lstate s' (l_natives ls) (l_frame ls)).

Declare Scope life_scope.
Delimit Scope life_scope with life.
Notation "x <- m ;; k" := (lbind m (fun x => k))
  (at level 61, m at next level, right associativity) : life_scope.
Notation "' pat <- m ;; k" := (lbind m (fun x => match x with pat => k end))
  (at level 61, pat pattern, m at next level, right associativity) : life_scope.
Notation "m ;;; k" := (lbind m (fun _ => k))
  (at level 61, right associativity) : life_scope.

Local Open Scope life_scope.

Section Body.

Variable env : environ.

(** [model = Model(p)]: the constructor makes a native handle, the name
    [model] is bound to the object. *)
Definition assign_model (p : string) : LM (model env) :=
  m <- in_proc (new_Model env p) ;;
  (fun ls =>
     (Ret m,
      mk_lstate (l_proc ls) (ModelHandle p :: l_natives ls)
        (mk_frame (Some (ModelHandle p)) (f_wf (l_frame ls))
                  (f_rec (l_frame ls))))).

(** [wf = wave.open(p, "rb")] *)
Definition assign_wf (p : string) : LM wave_read :=
  wf <- in_proc (wave_open_rb env p) ;;
  (fun ls =>
     (Ret wf,
      mk_lstate (l_proc ls) (l_natives ls)
        (mk_frame (f_model (l_frame ls)) (Some (p, false))
                  (f_rec (l_frame ls))))).

(** [rec = KaldiRecognizer(model, rate)] *)
Definition assign_rec (m : model env) (rate : Z) : LM (recognizer env) :=
  r <- in_proc (new_KaldiRecognizer env m rate) ;;
  (fun ls =>
     (Ret r,
      mk_lstate (l_proc ls) (RecognizerHandle rate :: l_natives ls)
        (mk_frame (f_model (l_frame ls)) (f_wf (l_frame ls))
                  (Some (RecognizerHandle rate))))).

(** [wf.close()]: the file is closed and the object knows it. *)
Definition close_wf (p : string) : LM unit :=
  in_proc (wave_close p) ;;;
  (fun ls =>
     (Ret tt,
      mk_lstate (l_proc ls) (l_natives ls)
        (mk_frame (f_model (l_frame ls)) (Some (p, true))
                  (f_rec (l_frame ls))))).

(** The statements after the loop. *)
Definition transcribe_finish (audio_path : string) (rec : recognizer env)
    (results : list jsonval) : LM dict :=
  '(s, rec) <- in_proc (rec_FinalResult env rec) ;;
  final <- in_proc (lift (json_loads env s)) ;;
  t <- in_proc (py_get final "text") ;;
  results <- (if truthy t
              then x <- in_proc (py_getitem final "text") ;;
                   lret (results ++ [x])%list
              else lret results) ;;
  close_wf audio_path ;;;
  text <- in_proc (str_join " " results) ;;
  lret (success_result (PyStr.strip text)).

(** The body of the [try:]. *)
Definition transcribe_body (audio_path : string) : LM dict :=
  found <- in_proc (os_path_exists env (MODEL_PATH env)) ;;
  if negb found then lret (failure_result "Vosk model not found")
  else
    model <- assign_model (MODEL_PATH env) ;;
    wf <- assign_wf audio_path ;;
    if negb (nchannels wf =? 1) then lret (failure_result "Audio must be mono")
    else
      rec <- assign_rec model (framerate wf) ;;
      rec <- in_proc (rec_SetWords env rec true) ;;
      '(wf, rec, results) <-
        in_proc (read_loop env (S (List.length (frames wf))) wf rec []) ;;
      transcribe_finish audio_path rec results.

(** The function up to its [return], in a fresh frame. *)
Definition at_return (audio_path : string) (w : pstate * list native)
  : outcome dict * lstate :=
  ltry_except (transcribe_body audio_path)
              (fun e => lret (failure_result (exc_str e)))
              (mk_lstate (fst w) (snd w) no_locals).

End Body.

(** The finaliser of a [Model] or of a [KaldiRecognizer] frees its
    handle. *)
Definition finalize_native (h : option native) (ls : lstate) : lstate :=
  match h with
  | Some x => mk_lstate (l_proc ls) (free x (l_natives ls)) (l_frame ls)
  | None => ls
  end.

(** The finaliser of a [Wave_read] calls [close()], which closes the file
    unless it is closed already. *)
Definition finalize_wf (ls : lstate) : lstate :=
  match f_wf (l_frame ls) with
  | Some (p, false) =>
      mk_lstate
        (mk_state (remove_first p (st_open (l_proc ls)))
                  (st_log (l_proc ls)) (st_stdout (l_proc ls)))
        (l_natives ls) (l_frame ls)
  | _ => ls
  end.

(** The frame dies: the objects its names were bound to are finalised. *)
Definition frame_dies (ls : lstate) : pstate * list native :=
  let ls1 := finalize_native (f_model (l_frame ls)) ls in
  let ls2 := finalize_wf ls1 in
  let ls3 := finalize_native (f_rec (l_frame ls)) ls2 in
  (l_proc ls3, l_natives ls3).

(** [transcribe_audio(audio_path)], from the call to the return to the
    caller. *)
Definition transcribe_audio (env : environ) (audio_path : string)
    (w : pstate * list native) : outcome dict * (pstate * list native) :=
  let (o, ls) := at_return env audio_path w in (o, frame_dies ls).

(** What a state holds: the files opened and not closed, the native
    handles, the frame. *)
Definition held (ls : lstate) : list string * list native * frame :=
  (st_open (l_proc ls), l_natives ls, l_frame ls).

(** The death of the frame leaves the files [files] and the handles
    [natives]. *)
Definition settled (files : list string) (natives : list native)
    (ls : lstate) : Prop :=
  st_open (fst (frame_dies ls)) = files /\ snd (frame_dies ls) = natives.

(** [lm] started in a state that satisfies [P] returns [a] in a state
    that satisfies [Q a], or ends otherwise in one that satisfies [R]. *)
Definition triple {A} (P : lstate -> Prop) (lm : LM A)
    (Q : A -> lstate -> Prop) (R : lstate -> Prop) : Prop :=
  forall ls, P ls ->
    match lm ls with
    | (Ret a, ls') => Q a ls'
    | (_, ls') => R ls'
    end.

(** [lm] does what [m] does to the process. *)
Definition simulates {A} (lm : LM A) (m : M A) : Prop :=
  forall ls, fst (lm ls) = fst (m (l_proc ls))
             /\ l_proc (snd (lm ls)) = snd (m (l_proc ls)).

(** [m] opens and closes no file. *)
Definition keeps_files {A} (m : M A) : Prop :=
  forall s, st_open (snd (m s)) = st_open s.

End Lifetime.

(** ** [json.dumps] on any string

    The strings above have code points below 256.  A Python [str] is a
    sequence of code points up to 0x10FFFF; this is [json.dumps] on
    those, with [py_encode_basestring_ascii] in full: a code point outside
    32..126 that has no short escape is written with four hexadecimal
    digits, and one above 0xFFFF as a surrogate pair. *)

Module Unicode.

Definition ustr : Type := list N.

(** The code points of a string of the script's model. *)
Fixpoint code_points (s : string) : ustr :=
  match s with
  | EmptyString => []
  | String c s' => N_of_ascii c :: code_points s'
  end.

(** The last hexadecimal digit of [n]. *)
Definition hex (n : N) : ascii := Json.hex_digit (N.to_nat (n mod 16)).

(** ['\\u{0:04x}'.format(n)], for [n < 0x10000] *)
Definition u_escape (n : N) : string :=
  "\u" ++ String (hex (n / 4096)) (String (hex (n / 256))
            (String (hex (n / 16)) (String (hex n) ""))).

(** One code point of [py_encode_basestring_ascii]. *)
Definition escape_code_point (n : N) : string :=
  if (n =? 34)%N then "\" ++ PyStr.dquote
  else if (n =? 92)%N then "\\"
  else if (n =? 10)%N then "\n"
  else if (n =? 13)%N then "\r"
  else if (n =? 9)%N then "\t"
  else if (n =? 8)%N then "\b"
  else if (n =? 12)%N then "\f"
  else if ((32 <=? n) && (n <=? 126))%N then String (ascii_of_N n) ""
  else if (n <? 65536)%N then u_escape n
  else
    let v := (n - 65536)%N in
    let s1 := N.lor 55296 (N.land (N.shiftr v 10) 1023) in
    let s2 := N.lor 56320 (N.land v 1023) in
    u_escape s1 ++ u_escape s2.

Fixpoint escape (s : ustr) : string :=
  match s with
  | [] => EmptyString
  | n :: s' => escape_code_point n ++ escape s'
  end.

Definition quote (s : ustr) : string :=
  PyStr.dquote ++ escape s ++ PyStr.dquote.

(** A value of a result dictionary, its string with any code points. *)
Inductive ufield : Type :=
| UBool (b : bool)
| UStr (s : ustr).

Definition udict : Type := list (ustr * ufield).

Definition dump_field (v : ufield) : string :=
  match v with
  | UBool true => "true"
  | UBool false => "false"
  | UStr s => quote s
  end.

Definition dump_item (kv : ustr * ufield) : string :=
  quote (fst kv) ++ ": " ++ dump_field (snd kv).

(** [json.dumps(d)] *)
Definition dumps (d : udict) : string :=
  "{" ++ PyStr.join ", " (map dump_item d) ++ "}".

(** A dictionary of the script's model, by code points. *)
Definition of_field (v : field) : ufield :=
  match v with
  | FBool b => UBool b
  | FStr s => UStr (code_points s)
  end.

Definition of_dict (d : dict) : udict :=
  map (fun kv => (code_points (fst kv), of_field (snd kv))) d.

End Unicode.

(** * Proofs *)

(** ** Strings *)

Lemma join_nil (sep : string) : PyStr.join sep [] = "".
Proof. reflexivity. Qed.

Lemma strip_empty : PyStr.strip "" = "".
Proof. reflexivity. Qed.

(** ** The monad: how each primitive runs on a state *)

Lemma bind_ret_eq {A B} (m : M A) (k : A -> M B) s a s' :
  m s = (Ret a, s') -> bind m k s = k a s'.
Proof. intros H. unfold bind. rewrite H. reflexivity. Qed.

Lemma bind_raise_eq {A B} (m : M A) (k : A -> M B) s e s' :
  m s = (Raise e, s') -> bind m k s = (Raise e, s').
Proof. intros H. unfold bind. rewrite H. reflexivity. Qed.

Lemma bind_log {B} (ev : event) (k : unit -> M B) s :
  bind (log ev) k s
  = k tt (mk_state (st_open s) (st_log s ++ [ev]) (st_stdout s)).
Proof. reflexivity. Qed.

Lemma bind_unit {A B} (a : A) (k : A -> M B) s : bind (ret a) k s = k a s.
Proof. reflexivity. Qed.

Lemma bind_lift_inr {A B} (a : A) (k : A -> M B) s :
  bind (lift (inr a)) k s = k a s.
Proof. reflexivity. Qed.

Lemma bind_lift_inl {A B} (e : pyexc) (k : A -> M B) s :
  bind (lift (inl e)) k s = (Raise e, s).
Proof. reflexivity. Qed.

Lemma bind_assoc {A B C} (m : M A) (k : A -> M B) (h : B -> M C) s :
  bind (bind m k) h s = bind m (fun a => bind (k a) h) s.
Proof. unfold bind. destruct (m s) as [[a|e|c|] s']; reflexivity. Qed.

(** ** The read loop *)

Section LoopProofs.

Variable env : environ.

Lemma skipn_shorter (size n : nat) (l : list byte) :
  firstn size l <> [] -> (List.length l <= S n)%nat ->
  (List.length (skipn size l) <= n)%nat.
Proof.
  intros Hne Hlen. rewrite length_skipn.
  destruct size as [|size]; [simpl in Hne; congruence|].
  destruct l as [|b l]; [simpl in Hne; congruence|]. simpl in *. lia.
Qed.

(** One iteration of the loop, on the state. *)
Lemma read_loop_step (fuel : nat) (wf : wave_read) (rec : recognizer env)
    (acc : list jsonval) (st : pstate) :
  let size := Z.to_nat (4000 * (nchannels wf * sampwidth wf)) in
  let data := firstn size (frames wf) in
  let wf1 := mk_wave (nchannels wf) (sampwidth wf) (framerate wf)
                     (skipn size (frames wf)) in
  let st1 := mk_state (st_open st) (st_log st ++ [EvReadFrames 4000])
                      (st_stdout st) in
  let st2 := mk_state (st_open st)
               ((st_log st ++ [EvReadFrames 4000])
                  ++ [EvAcceptWaveform (List.length data)])
               (st_stdout st) in
  let st3 := mk_state (st_open st) (st_log st2 ++ [EvResult]) (st_stdout st) in
  read_loop env (S fuel) wf rec acc st =
  match data with
  | [] => (Ret (wf1, rec, acc), st1)
  | _ =>
      match AcceptWaveform env rec data with
      | inl e => (Raise e, st2)
      | inr (accepted, rec1) =>
          if accepted =? 0 then read_loop env fuel wf1 rec1 acc st2
          else
            match Result env rec1 with
            | inl e => (Raise e, st3)
            | inr (s, rec2) =>
                match json_loads env s with
                | inl e => (Raise e, st3)
                | inr v =>
                    match v with
                    | JDict d =>
                        match lookup "text" d with
                        | Some t =>
                            if truthy t
                            then read_loop env fuel wf1 rec2 (acc ++ [t]) st3
                            else read_loop env fuel wf1 rec2 acc st3
                        | None => read_loop env fuel wf1 rec2 acc st3
                        end
                    | _ =>
                        (Raise (mk_exc AttributeError_
                                  (PyStr.squote ++ type_name v ++ PyStr.squote
                                   ++ " object has no attribute "
                                   ++ PyStr.squote ++ "get" ++ PyStr.squote)),
                         st3)
                    end
                end
            end
      end
  end.
Proof.
  intros size data wf1 st1 st2 st3.
  cbn [read_loop]. unfold readframes. rewrite bind_assoc, bind_log, bind_unit.
  fold size. fold data. fold wf1.
  destruct data as [|b data'] eqn:Hdata; [reflexivity|].
  cbn [List.length Nat.eqb].
  unfold rec_AcceptWaveform. rewrite bind_assoc, bind_log.
  destruct (AcceptWaveform env rec (b :: data')) as [e | [accepted rec1]];
    [reflexivity|].
  rewrite bind_lift_inr.
  destruct (accepted =? 0); cbn [negb]; [reflexivity|].
  unfold rec_Result. rewrite bind_assoc, bind_log.
  destruct (Result env rec1) as [e | [s rec2]]; [reflexivity|].
  rewrite bind_lift_inr.
  destruct (json_loads env s) as [e | v]; [reflexivity|].
  rewrite bind_lift_inr.
  destruct v as [| bb | z | k | str | l | d]; try reflexivity.
  cbn [py_get]. rewrite bind_unit.
  destruct (lookup "text" d) as [t|] eqn:Hlk.
  - destruct (truthy t); [|reflexivity].
    cbn [py_getitem]. rewrite Hlk. rewrite bind_unit. reflexivity.
  - reflexivity.
Qed.

(** The loop computes what feeding the chunks one by one gives: it
    returns the texts kept, after those it started with, or raises where
    feeding fails.  Given more iterations than bytes, it never runs out
    of them. *)
Lemma read_loop_feed (n : nat) :
  forall (fuel : nat) (wf : wave_read) (rec : recognizer env)
         (acc : list jsonval) (st : pstate),
    (List.length (frames wf) <= n)%nat -> (n < fuel)%nat ->
    exists st',
      same_resources st st' /\
      match spec_feed env rec
              (chunks_of (Z.to_nat (4000 * (nchannels wf * sampwidth wf)))
                         n (frames wf)) with
      | Some (segs, rec') =>
          exists wf', read_loop env fuel wf rec acc st
                      = (Ret (wf', rec', (acc ++ segs)%list), st')
      | None =>
          exists e, read_loop env fuel wf rec acc st = (Raise e, st')
      end.
Proof.
  induction n as [|n IH]; intros fuel wf rec acc st Hlen Hfuel.
  - destruct fuel as [|fuel]; [lia|].
    rewrite read_loop_step.
    destruct (frames wf) as [|b l] eqn:Hfr; [|simpl in Hlen; lia].
    rewrite firstn_nil. cbn [chunks_of spec_feed]. rewrite app_nil_r.
    eexists. split; [|eexists; reflexivity]. split; reflexivity.
  - destruct fuel as [|fuel]; [lia|].
    rewrite read_loop_step. cbn [chunks_of].
    set (size := Z.to_nat (4000 * (nchannels wf * sampwidth wf))).
    destruct (firstn size (frames wf)) as [|b data] eqn:Hdata.
    + cbn [spec_feed]. rewrite app_nil_r.
      eexists. split; [|eexists; reflexivity]. split; reflexivity.
    + assert (Hsk : (List.length (skipn size (frames wf)) <= n)%nat).
      { apply skipn_shorter; [rewrite Hdata; discriminate | exact Hlen]. }
      assert (Hf : (n < fuel)%nat) by lia.
      set (wf1 := mk_wave (nchannels wf) (sampwidth wf) (framerate wf)
                          (skipn size (frames wf))) in *.
      assert (IH' : forall rec1 acc1 st1,
                 exists st',
                   same_resources st1 st' /\
                   match spec_feed env rec1
                           (chunks_of size n (skipn size (frames wf))) with
                   | Some (segs, rec') =>
                       exists wf', read_loop env fuel wf1 rec1 acc1 st1
                                   = (Ret (wf', rec', (acc1 ++ segs)%list), st')
                   | None =>
                       exists e, read_loop env fuel wf1 rec1 acc1 st1
                                 = (Raise e, st')
                   end).
      { intros rec1 acc1 st1. exact (IH fuel wf1 rec1 acc1 st1 Hsk Hf). }
      clear IH. cbn [spec_feed].
      destruct (AcceptWaveform env rec (b :: data)) as [e | [accepted rec1]].
      { eexists. split; [|eexists; reflexivity]. split; reflexivity. }
      destruct (accepted =? 0).
      { match goal with
        | |- context [read_loop env fuel wf1 rec1 acc ?s] =>
            destruct (IH' rec1 acc s) as (st' & [Ho Hs] & Hr)
        end.
        exists st'. split; [split; assumption | exact Hr]. }
      destruct (Result env rec1) as [e | [s rec2]].
      { eexists. split; [|eexists; reflexivity]. split; reflexivity. }
      destruct (json_loads env s) as [e | v].
      { eexists. split; [|eexists; reflexivity]. split; reflexivity. }
      destruct v as [| bb | z | k | str | l | d];
        try (cbn [spec_text]; eexists; split;
             [|eexists; reflexivity]; split; reflexivity).
      cbn [spec_text].
      destruct (lookup "text" d) as [t|].
      * destruct (truthy t).
        -- match goal with
           | |- context [read_loop env fuel wf1 rec2 ?a ?s] =>
               destruct (IH' rec2 a s) as (st' & [Ho Hs] & Hr)
           end.
           exists st'. split; [split; assumption|].
           destruct (spec_feed env rec2 _) as [[segs r]|]; [|exact Hr].
           destruct Hr as [wf' Hr]. exists wf'. rewrite Hr.
           rewrite <- app_assoc. reflexivity.
        -- match goal with
           | |- context [read_loop env fuel wf1 rec2 ?a ?s] =>
               destruct (IH' rec2 a s) as (st' & [Ho Hs] & Hr)
           end.
           exists st'. split; [split; assumption|].
           destruct (spec_feed env rec2 _) as [[segs r]|]; exact Hr.
      * match goal with
        | |- context [read_loop env fuel wf1 rec2 ?a ?s] =>
            destruct (IH' rec2 a s) as (st' & [Ho Hs] & Hr)
        end.
        exists st'. split; [split; assumption|].
        destruct (spec_feed env rec2 _) as [[segs r]|]; exact Hr.
Qed.

End LoopProofs.

(** ** The driver *)

Lemma all_str_map (i : nat) (ss : list string) : all_str i (map JStr ss) = inr ss.
Proof.
  revert i. induction ss as [|s ss IH]; intros i; [reflexivity|].
  simpl. rewrite IH. reflexivity.
Qed.

Lemma all_str_inr (l : list jsonval) :
  forall i ss, all_str i l = inr ss -> l = map JStr ss.
Proof.
  induction l as [|v l IH]; intros i ss H.
  - simpl in H. injection H as <-. reflexivity.
  - destruct v; simpl in H; try discriminate.
    destruct (all_str (S i) l) as [bad|ss'] eqn:E; [discriminate|].
    injection H as <-. simpl. f_equal. exact (IH _ _ E).
Qed.

Lemma remove_first_head (p : string) (l : list string) :
  remove_first p (p :: l) = l.
Proof. simpl. rewrite String.eqb_refl. reflexivity. Qed.

Section DriverProofs.

Variable env : environ.

(** The statements after the loop, on the state. *)
Lemma transcribe_finish_run (audio_path : string) (rec : recognizer env)
    (results : list jsonval) (st : pstate) :
  exists st',
    st_stdout st' = st_stdout st /\
    match spec_flush env rec with
    | Some fin =>
        match all_str 0 (results ++ fin) with
        | inr ss =>
            transcribe_finish env audio_path rec results st
            = (Ret (success_result (spec_transcript ss)), st')
            /\ st_open st' = remove_first audio_path (st_open st)
        | inl _ =>
            exists e, transcribe_finish env audio_path rec results st
                      = (Raise e, st')
        end
    | None =>
        exists e, transcribe_finish env audio_path rec results st = (Raise e, st')
    end.
Proof.
  assert (Hfin : forall results st2,
             st_stdout st2 = st_stdout st ->
             st_open st2 = st_open st ->
             exists st',
               st_stdout st' = st_stdout st /\
               match all_str 0 results with
               | inr ss =>
                   (wave_close audio_path ;;;
                    text <- str_join " " results ;;
                    ret (success_result (PyStr.strip text))) st2
                   = (Ret (success_result (spec_transcript ss)), st')
                   /\ st_open st' = remove_first audio_path (st_open st)
               | inl _ =>
                   exists e,
                     (wave_close audio_path ;;;
                      text <- str_join " " results ;;
                      ret (success_result (PyStr.strip text))) st2
                     = (Raise e, st')
               end).
  { intros results0 st2 Hs2 Ho2. unfold wave_close.
    eexists. rewrite bind_assoc, bind_log. unfold bind at 1 3.
    cbn [st_open st_log st_stdout]. unfold str_join.
    destruct (all_str 0 results0) as [[i v]|ss].
    - split; [|eexists; reflexivity]. exact Hs2.
    - rewrite bind_unit. split; [exact Hs2|]. split; [reflexivity|].
      cbn [st_open]. rewrite Ho2. reflexivity. }
  unfold transcribe_finish, rec_FinalResult, spec_flush.
  rewrite bind_assoc, bind_log.
  destruct (FinalResult env rec) as [e | [s r'']].
  { eexists. split; [|eexists; reflexivity]. reflexivity. }
  rewrite bind_lift_inr.
  destruct (json_loads env s) as [e | v].
  { eexists. split; [|eexists; reflexivity]. reflexivity. }
  rewrite bind_lift_inr.
  destruct v as [| bb | z | k | str | l | d];
    try (eexists; split; [|eexists; reflexivity]; reflexivity).
  cbn [py_get spec_text]. rewrite bind_unit.
  set (st2 := mk_state (st_open st) (st_log st ++ [EvFinalResult])
                       (st_stdout st)).
  destruct (lookup "text" d) as [t|] eqn:Hlk.
  - destruct (truthy t).
    + cbn [py_getitem]. rewrite Hlk.
      rewrite bind_assoc, bind_unit, bind_unit.
      exact (Hfin (results ++ [t])%list st2 eq_refl eq_refl).
    + rewrite bind_unit. rewrite app_nil_r.
      exact (Hfin results st2 eq_refl eq_refl).
  - cbn [truthy]. rewrite bind_unit. rewrite app_nil_r.
    exact (Hfin results st2 eq_refl eq_refl).
Qed.

(** The body of the [try:], statement by statement, on the state. *)
Lemma transcribe_body_eq (audio_path : string) (st : pstate) :
  let mp := MODEL_PATH env in
  let log1 := (st_log st ++ [EvExists mp])%list in
  let log2 := (log1 ++ [EvModel mp])%list in
  let log3 := (log2 ++ [EvWaveOpen audio_path])%list in
  transcribe_body env audio_path st =
  if path_exists env mp then
    match Model env mp with
    | inl e => (Raise e, mk_state (st_open st) log2 (st_stdout st))
    | inr m =>
        match wave_open env audio_path with
        | inl e => (Raise e, mk_state (st_open st) log3 (st_stdout st))
        | inr wf =>
            if nchannels wf =? 1 then
              let log4 := (log3 ++ [EvKaldiRecognizer (framerate wf)])%list in
              match KaldiRecognizer env m (framerate wf) with
              | inl e =>
                  (Raise e,
                   mk_state (audio_path :: st_open st) log4 (st_stdout st))
              | inr r =>
                  bind (read_loop env (S (List.length (frames wf))) wf
                          (SetWords env r true) [])
                       (fun x => transcribe_finish env audio_path (snd (fst x)) (snd x))
                       (mk_state (audio_path :: st_open st)
                                 (log4 ++ [EvSetWords true]) (st_stdout st))
              end
            else
              (Ret (failure_result "Audio must be mono"),
               mk_state (audio_path :: st_open st) log3 (st_stdout st))
        end
    end
  else
    (Ret (failure_result "Vosk model not found"),
     mk_state (st_open st) log1 (st_stdout st)).
Proof.
  intros mp log1 log2 log3.
  unfold transcribe_body, os_path_exists, new_Model, wave_open_rb,
    new_KaldiRecognizer, rec_SetWords. fold mp.
  rewrite bind_assoc, bind_log, bind_unit.
  destruct (path_exists env mp); cbn [negb]; [|reflexivity].
  rewrite bind_assoc, bind_log.
  destruct (Model env mp) as [e|m]; [reflexivity|].
  rewrite bind_lift_inr.
  rewrite bind_assoc, bind_log, bind_assoc.
  destruct (wave_open env audio_path) as [e|wf]; [reflexivity|].
  rewrite bind_lift_inr. unfold bind at 1.
  cbn [st_open st_log st_stdout].
  destruct (nchannels wf =? 1); cbn [negb]; [|reflexivity].
  rewrite bind_assoc, bind_log.
  cbn [st_open st_log st_stdout].
  destruct (KaldiRecognizer env m (framerate wf)) as [e|r]; [reflexivity|].
  rewrite bind_lift_inr.
  rewrite bind_assoc, bind_log, bind_unit.
  cbn [st_open st_log st_stdout].
  unfold bind.
  destruct (read_loop env _ wf (SetWords env r true) [] _)
    as [[[[wf' r'] results]|e|c|] st']; reflexivity.
Qed.

(** The run of the body on a mono file, once model, file and recognizer
    are there: it returns the transcript of the segments, or raises. *)
Lemma transcribe_body_mono (audio_path : string) (st : pstate)
    (m : model env) (wf : wave_read) (r : recognizer env) :
  path_exists env (MODEL_PATH env) = true ->
  Model env (MODEL_PATH env) = inr m ->
  wave_open env audio_path = inr wf ->
  nchannels wf = 1 ->
  KaldiRecognizer env m (framerate wf) = inr r ->
  exists st',
    st_stdout st' = st_stdout st /\
    match spec_segments env (SetWords env r true) wf with
    | Some vs =>
        match all_str 0 vs with
        | inr ss =>
            transcribe_body env audio_path st
            = (Ret (success_result (spec_transcript ss)), st')
            /\ st_open st' = st_open st
        | inl _ => exists e, transcribe_body env audio_path st = (Raise e, st')
        end
    | None => exists e, transcribe_body env audio_path st = (Raise e, st')
    end.
Proof.
  intros Hex Hm Hw Hmono Hr.
  rewrite transcribe_body_eq. cbv zeta.
  rewrite Hex, Hm, Hw, Hmono, Hr. cbn [Z.eqb Pos.eqb].
  match goal with
  | |- context [bind (read_loop _ _ _ _ _) _ ?s] => set (st0 := s)
  end.
  destruct (read_loop_feed env (List.length (frames wf))
              (S (List.length (frames wf))) wf (SetWords env r true) [] st0
              (le_n _) (Nat.lt_succ_diag_r _))
    as (st1 & [Ho Hs] & Hloop).
  unfold spec_segments, spec_chunks.
  destruct (spec_feed env (SetWords env r true) _) as [[segs r']|].
  2:{ destruct Hloop as [e Hloop]. exists st1. split; [exact Hs|].
      exists e. apply bind_raise_eq. exact Hloop. }
  destruct Hloop as [wf' Hloop]. cbn [app] in Hloop.
  destruct (transcribe_finish_run audio_path r' segs st1)
    as (st2 & Hs2 & Hfin).
  exists st2. split; [rewrite Hs2; exact Hs|].
  destruct (spec_flush env r') as [fin|].
  - destruct (all_str 0 (segs ++ fin)) as [bad|ss].
    + destruct Hfin as [e Hfin]. exists e.
      rewrite (bind_ret_eq _ _ _ _ _ Hloop). exact Hfin.
    + destruct Hfin as [Hfin Hopen]. split.
      * rewrite (bind_ret_eq _ _ _ _ _ Hloop). exact Hfin.
      * rewrite Hopen, Ho. apply remove_first_head.
  - destruct Hfin as [e Hfin]. exists e.
    rewrite (bind_ret_eq _ _ _ _ _ Hloop). exact Hfin.
Qed.

(** Every run of the body ends in one of its three [return]s or in an
    exception; it prints nothing. *)
Lemma transcribe_body_run (audio_path : string) (st : pstate) :
  exists st',
    st_stdout st' = st_stdout st /\
    ((exists d, transcribe_body env audio_path st = (Ret d, st')
                /\ body_returns env audio_path d)
     \/ (exists e, transcribe_body env audio_path st = (Raise e, st'))).
Proof.
  destruct (path_exists env (MODEL_PATH env)) eqn:Hex.
  2:{ rewrite transcribe_body_eq. cbv zeta. rewrite Hex.
      eexists. split;
        [|left; eexists; split; [reflexivity | apply returns_no_model; exact Hex]].
      reflexivity. }
  destruct (Model env (MODEL_PATH env)) as [e|m] eqn:Hm.
  { rewrite transcribe_body_eq. cbv zeta. rewrite Hex, Hm.
    eexists. split; [|right; eexists; reflexivity]. reflexivity. }
  destruct (wave_open env audio_path) as [e|wf] eqn:Hw.
  { rewrite transcribe_body_eq. cbv zeta. rewrite Hex, Hm, Hw.
    eexists. split; [|right; eexists; reflexivity]. reflexivity. }
  destruct (nchannels wf =? 1) eqn:Hch.
  2:{ rewrite transcribe_body_eq. cbv zeta. rewrite Hex, Hm, Hw, Hch.
      eexists. split;
        [|left; eexists; split;
          [reflexivity
          | apply (returns_not_mono env audio_path m wf Hex Hm Hw);
            apply Z.eqb_neq; exact Hch]].
      reflexivity. }
  apply Z.eqb_eq in Hch.
  destruct (KaldiRecognizer env m (framerate wf)) as [e|r] eqn:Hr.
  { rewrite transcribe_body_eq. cbv zeta. rewrite Hex, Hm, Hw, Hch, Hr.
    eexists. split; [|right; eexists; reflexivity]. reflexivity. }
  destruct (transcribe_body_mono audio_path st m wf r Hex Hm Hw Hch Hr)
    as (st' & Hs & H).
  exists st'. split; [exact Hs|].
  destruct (spec_segments env (SetWords env r true) wf) as [vs|] eqn:Hseg;
    [|right; exact H].
  destruct (all_str 0 vs) as [bad|ss] eqn:Hall; [right; exact H|].
  destruct H as [H _]. left. eexists. split; [exact H|].
  apply (returns_transcript env audio_path m wf r ss Hex Hm Hw Hch Hr).
  rewrite Hseg. f_equal. exact (all_str_inr _ _ _ Hall).
Qed.

(** Conversely, a [return] whose condition holds is the one taken. *)
Lemma body_returns_run (audio_path : string) (d : dict) (st : pstate) :
  body_returns env audio_path d ->
  exists st', transcribe_body env audio_path st = (Ret d, st').
Proof.
  intros [Hex | m wf Hex Hm Hw Hch | m wf r segs Hex Hm Hw Hch Hr Hseg].
  - rewrite transcribe_body_eq. cbv zeta. rewrite Hex. eexists. reflexivity.
  - rewrite transcribe_body_eq. cbv zeta. rewrite Hex, Hm, Hw.
    apply Z.eqb_neq in Hch. rewrite Hch. eexists. reflexivity.
  - destruct (transcribe_body_mono audio_path st m wf r Hex Hm Hw Hch Hr)
      as (st' & _ & H).
    rewrite Hseg, all_str_map in H. destruct H as [H _].
    exists st'. exact H.
Qed.

End DriverProofs.

(** ** [transcribe_audio] and the command line, on the state *)

Section ScriptProofs.

Variable env : environ.

(** [transcribe_audio] always returns a dict: one of the body's three
    [return]s, or the failure made from the exception the body raised.
    It prints nothing. *)
Lemma transcribe_audio_run (audio_path : string) (st : pstate) :
  exists d st',
    transcribe_audio env audio_path st = (Ret d, st')
    /\ st_stdout st' = st_stdout st
    /\ (body_returns env audio_path d
        \/ exists e, transcribe_body env audio_path st = (Raise e, st')
                     /\ d = failure_result (exc_str e)).
Proof.
  destruct (transcribe_body_run env audio_path st)
    as (st' & Hs & [(d & Hb & Hd) | (e & Hb)]).
  - exists d, st'. unfold transcribe_audio, try_except. rewrite Hb.
    split; [reflexivity|]. split; [exact Hs|]. left. exact Hd.
  - exists (failure_result (exc_str e)), st'.
    unfold transcribe_audio, try_except. rewrite Hb.
    split; [reflexivity|]. split; [exact Hs|]. right. exists e.
    split; reflexivity.
Qed.

Lemma body_returns_shape (audio_path : string) (d : dict) :
  body_returns env audio_path d -> well_shaped d = true.
Proof. intros [ | | ]; reflexivity. Qed.

(** The script, branch by branch, on the state. *)
Lemma main_eq (argv : list string) (st : pstate) :
  main env argv st =
  if (List.length argv =? 2)%nat then
    let audio_file := nth 1 argv "" in
    let st1 := mk_state (st_open st) (st_log st ++ [EvExists audio_file])
                        (st_stdout st) in
    if path_exists env audio_file then
      match transcribe_audio env audio_file st1 with
      | (Ret result, st2) =>
          (Ret tt, mk_state (st_open st2) (st_log st2)
                            (st_stdout st2 ++ [Json.dumps result]))
      | (Raise e, st2) => (Raise e, st2)
      | (Exit c, st2) => (Exit c, st2)
      | (OutOfFuel, st2) => (OutOfFuel, st2)
      end
    else
      (Exit 1,
       mk_state (st_open st) (st_log st ++ [EvExists audio_file])
         (st_stdout st
          ++ [Json.dumps (failure_result ("File not found: " ++ audio_file))]))
  else
    (Exit 1,
     mk_state (st_open st) (st_log st)
       (st_stdout st
        ++ [Json.dumps (failure_result "Usage: stt.py <audio_file>")])).
Proof.
  unfold main.
  destruct (List.length argv =? 2)%nat; cbn [negb]; [|reflexivity].
  cbv zeta. unfold os_path_exists.
  rewrite bind_assoc, bind_log, bind_unit.
  destruct (path_exists env (nth 1 argv "")); cbn [negb]; [|reflexivity].
  unfold bind at 1.
  destruct (transcribe_audio env (nth 1 argv "") _) as [[d|e|c|] st2];
    reflexivity.
Qed.

End ScriptProofs.

(** ** The segments kept are not empty *)

Section SegmentProofs.

Variable env : environ.

Lemma spec_text_truthy (v : jsonval) (seg : list jsonval) :
  spec_text v = Some seg -> Forall (fun t => truthy t = true) seg.
Proof.
  destruct v; try discriminate. cbn [spec_text].
  destruct (lookup "text" d) as [t|].
  - destruct (truthy t) eqn:Ht; intros H; injection H as <-.
    + constructor; [exact Ht | constructor].
    + constructor.
  - intros H; injection H as <-. constructor.
Qed.

Lemma spec_feed_truthy (cs : list (list byte)) :
  forall (rec rec' : recognizer env) (segs : list jsonval),
    spec_feed env rec cs = Some (segs, rec') ->
    Forall (fun t => truthy t = true) segs.
Proof.
  induction cs as [|c cs IH]; intros rec rec' segs H.
  - injection H as <- _. constructor.
  - cbn [spec_feed] in H.
    destruct (AcceptWaveform env rec c) as [e|[accepted rec1]]; [discriminate|].
    destruct (accepted =? 0); [exact (IH _ _ _ H)|].
    destruct (Result env rec1) as [e|[s rec2]]; [discriminate|].
    destruct (json_loads env s) as [e|v]; [discriminate|].
    destruct (spec_text v) as [seg|] eqn:Hseg; [|discriminate].
    destruct (spec_feed env rec2 cs) as [[segs' r]|] eqn:Hrest; [|discriminate].
    injection H as <- _. apply Forall_app. split.
    + exact (spec_text_truthy v seg Hseg).
    + exact (IH _ _ _ Hrest).
Qed.

Lemma spec_segments_truthy (rec : recognizer env) (wf : wave_read)
    (vs : list jsonval) :
  spec_segments env rec wf = Some vs -> Forall (fun t => truthy t = true) vs.
Proof.
  unfold spec_segments, spec_flush. intros H.
  destruct (spec_feed env rec (spec_chunks wf)) as [[segs rec']|] eqn:Hfeed;
    [|discriminate].
  destruct (FinalResult env rec') as [e|[s r]]; [discriminate|].
  destruct (json_loads env s) as [e|v]; [discriminate|].
  destruct (spec_text v) as [fin|] eqn:Hfin; [|discriminate].
  injection H as <-. apply Forall_app. split.
  - exact (spec_feed_truthy _ _ _ _ Hfeed).
  - exact (spec_text_truthy v fin Hfin).
Qed.

Lemma truthy_strings (segs : list string) :
  Forall (fun t => truthy t = true) (map JStr segs) ->
  Forall (fun s => s <> "") segs.
Proof.
  induction segs as [|s segs IH]; intros H; [constructor|].
  inversion H as [|? ? Hs Hrest]; subst. constructor; [|exact (IH Hrest)].
  intros ->. discriminate Hs.
Qed.

(** A file that is not mono, once the model is loaded: the failure is
    returned right after [wave.open], with no call of [wf.close()]. *)
Lemma transcribe_audio_not_mono (audio_path : string) (st : pstate)
    (m : model env) (wf : wave_read) :
  path_exists env (MODEL_PATH env) = true ->
  Model env (MODEL_PATH env) = inr m ->
  wave_open env audio_path = inr wf ->
  nchannels wf <> 1 ->
  transcribe_audio env audio_path st
  = (Ret (failure_result "Audio must be mono"),
     mk_state (audio_path :: st_open st)
       (st_log st ++ [EvExists (MODEL_PATH env); EvModel (MODEL_PATH env);
                      EvWaveOpen audio_path])
       (st_stdout st)).
Proof.
  intros Hex Hm Hw Hch. apply Z.eqb_neq in Hch.
  unfold transcribe_audio, try_except.
  rewrite transcribe_body_eq. cbv zeta. rewrite Hex, Hm, Hw, Hch.
  rewrite <- !app_assoc. reflexivity.
Qed.

End SegmentProofs.

(** * Properties of the specification *)

(** C1. For every input path, [transcribe_audio] returns a dict: it never
    raises, never exits the process and always terminates.  Whatever
    exception the body of its [try:] raises is turned into the failure
    result carrying [str(e)]; in particular the exceptions of the model
    constructor, of [wave.open] and of the recognizer constructor. *)
Theorem transcribe_audio_never_raises (env : environ) (audio_path : string)
    (st : pstate) :
  (exists d st', transcribe_audio env audio_path st = (Ret d, st'))
  /\ (forall e st',
        transcribe_body env audio_path st = (Raise e, st') ->
        transcribe_audio env audio_path st
        = (Ret (failure_result (exc_str e)), st'))
  /\ (forall e,
        path_exists env (MODEL_PATH env) = true ->
        Model env (MODEL_PATH env) = inl e ->
        fst (transcribe_audio env audio_path st)
        = Ret (failure_result (exc_str e)))
  /\ (forall m e,
        path_exists env (MODEL_PATH env) = true ->
        Model env (MODEL_PATH env) = inr m ->
        wave_open env audio_path = inl e ->
        fst (transcribe_audio env audio_path st)
        = Ret (failure_result (exc_str e)))
  /\ (forall m wf e,
        path_exists env (MODEL_PATH env) = true ->
        Model env (MODEL_PATH env) = inr m ->
        wave_open env audio_path = inr wf ->
        nchannels wf = 1 ->
        KaldiRecognizer env m (framerate wf) = inl e ->
        fst (transcribe_audio env audio_path st)
        = Ret (failure_result (exc_str e))).
Proof.
  split; [|split; [|split; [|split]]].
  - destruct (transcribe_audio_run env audio_path st) as (d & st' & H & _).
    exists d, st'. exact H.
  - intros e st' H. unfold transcribe_audio, try_except. rewrite H. reflexivity.
  - intros e Hex Hm. unfold transcribe_audio, try_except.
    rewrite transcribe_body_eq. cbv zeta. rewrite Hex, Hm. reflexivity.
  - intros m e Hex Hm Hw. unfold transcribe_audio, try_except.
    rewrite transcribe_body_eq. cbv zeta. rewrite Hex, Hm, Hw. reflexivity.
  - intros m wf e Hex Hm Hw Hch Hr. unfold transcribe_audio, try_except.
    rewrite transcribe_body_eq. cbv zeta. rewrite Hex, Hm, Hw, Hch, Hr.
    reflexivity.
Qed.

(** C2. Every dict that [transcribe_audio] returns, and every object the
    script prints, has a boolean ["success"] and exactly one of ["text"]
    (when it is true) and ["error"] (when it is false).  The script
    prints exactly one line, the [json.dumps] of such a dict. *)
Theorem results_well_shaped (env : environ) :
  (forall audio_path st,
      exists d st', transcribe_audio env audio_path st = (Ret d, st')
                    /\ well_shaped d = true)
  /\ (forall argv st,
        exists d, st_stdout (snd (main env argv st))
                  = (st_stdout st ++ [Json.dumps d])%list
                  /\ well_shaped d = true).
Proof.
  assert (Hdriver : forall audio_path st,
             exists d st', transcribe_audio env audio_path st = (Ret d, st')
                           /\ st_stdout st' = st_stdout st
                           /\ well_shaped d = true).
  { intros audio_path st.
    destruct (transcribe_audio_run env audio_path st)
      as (d & st' & H & Hs & [Hd | (e & _ & ->)]).
    - exists d, st'. split; [exact H|]. split; [exact Hs|].
      exact (body_returns_shape env audio_path d Hd).
    - eexists _, st'. split; [exact H|]. split; [exact Hs|]. reflexivity. }
  split.
  - intros audio_path st. destruct (Hdriver audio_path st) as (d & st' & H & _ & Hw).
    exists d, st'. split; assumption.
  - intros argv st. rewrite main_eq.
    destruct (List.length argv =? 2)%nat.
    + cbv zeta. destruct (path_exists env (nth 1 argv "")).
      * match goal with
        | |- context [transcribe_audio env ?p ?s] =>
            destruct (Hdriver p s) as (d & st' & H & Hs & Hw)
        end.
        rewrite H. exists d. split; [|exact Hw].
        cbn [snd st_stdout]. rewrite Hs. reflexivity.
      * eexists. split; reflexivity.
    + eexists. split; reflexivity.
Qed.

(** C4. When the model directory is not at [MODEL_PATH],
    [transcribe_audio] returns
    [{"success": False, "error": "Vosk model not found"}], whatever the
    audio path. *)
Theorem model_not_found (env : environ) (audio_path : string) (st : pstate) :
  path_exists env (MODEL_PATH env) = false ->
  fst (transcribe_audio env audio_path st)
  = Ret (failure_result "Vosk model not found").
Proof.
  intros Hex. unfold transcribe_audio, try_except.
  rewrite transcribe_body_eq. cbv zeta. rewrite Hex. reflexivity.
Qed.

(** C10. The model check comes before the audio file is opened: when the
    model directory is missing, the only call [transcribe_audio] makes is
    [os.path.exists(MODEL_PATH)]; no file is opened, none is left open,
    and the result is the model-not-found failure whatever [wave.open]
    would have done with the path. *)
Theorem model_check_precedes_open (env : environ) (audio_path : string)
    (st : pstate) :
  path_exists env (MODEL_PATH env) = false ->
  transcribe_audio env audio_path st
  = (Ret (failure_result "Vosk model not found"),
     mk_state (st_open st) (st_log st ++ [EvExists (MODEL_PATH env)])
              (st_stdout st))
  /\ new_events st (snd (transcribe_audio env audio_path st))
     = [EvExists (MODEL_PATH env)]
  /\ forall p, ~ In (EvWaveOpen p)
                    (new_events st (snd (transcribe_audio env audio_path st))).
Proof.
  intros Hex.
  assert (H : transcribe_audio env audio_path st
              = (Ret (failure_result "Vosk model not found"),
                 mk_state (st_open st) (st_log st ++ [EvExists (MODEL_PATH env)])
                          (st_stdout st))).
  { unfold transcribe_audio, try_except.
    rewrite transcribe_body_eq. cbv zeta. rewrite Hex. reflexivity. }
  assert (Hnew : new_events st (snd (transcribe_audio env audio_path st))
                 = [EvExists (MODEL_PATH env)]).
  { rewrite H. unfold new_events. cbn [snd st_log].
    rewrite skipn_app, skipn_all, Nat.sub_diag. reflexivity. }
  split; [exact H|]. split; [exact Hnew|].
  intros p Hin. rewrite Hnew in Hin. destruct Hin as [Hin | []].
  discriminate Hin.
Qed.

(** C8. With no positional argument, or with more than one, the script
    prints [{"success": false, "error": "Usage: stt.py <audio_file>"}] and
    exits with status 1. *)
Theorem usage_error (env : environ) (prog : string) (args : list string) :
  List.length args <> 1%nat ->
  run_script env (prog :: args) = (Some 1, mk_state [] [] [usage_line])
  /\ usage_line = Json.dumps (failure_result "Usage: stt.py <audio_file>").
Proof.
  intros Hlen. split; [|reflexivity].
  unfold run_script. rewrite main_eq.
  destruct args as [|a [|b args]]; [reflexivity | now destruct Hlen | reflexivity].
Qed.

(** C9. With one argument naming a path that does not exist, the script
    prints [{"success": false, "error": "File not found: <path>"}] and
    exits with status 1; the existence test is the only call it makes, so
    the driver is not run. *)
Theorem file_not_found (env : environ) (prog audio_file : string) :
  path_exists env audio_file = false ->
  run_script env [prog; audio_file]
  = (Some 1,
     mk_state [] [EvExists audio_file]
       [Json.dumps (failure_result ("File not found: " ++ audio_file))]).
Proof.
  intros Hex. unfold run_script. rewrite main_eq.
  cbn [List.length Nat.eqb nth]. cbv zeta. rewrite Hex. reflexivity.
Qed.

(** C7. With one argument naming an existing path, the script prints the
    [json.dumps] of what the driver returns and exits with status 0,
    whether that result is a success or a failure. *)
Theorem existing_file_exit_zero (env : environ) (prog audio_file : string) :
  path_exists env audio_file = true ->
  exists d st',
    transcribe_audio env audio_file (mk_state [] [EvExists audio_file] [])
    = (Ret d, st')
    /\ run_script env [prog; audio_file]
       = (Some 0, mk_state (st_open st') (st_log st') [Json.dumps d]).
Proof.
  intros Hex.
  destruct (transcribe_audio_run env audio_file
              (mk_state [] [EvExists audio_file] []))
    as (d & st' & H & Hs & _).
  exists d, st'. split; [exact H|].
  unfold run_script. rewrite main_eq.
  cbn [List.length Nat.eqb nth]. cbv zeta. rewrite Hex.
  unfold initial_state. cbn [st_open st_log st_stdout app].
  rewrite H. cbn [exit_status]. rewrite Hs. reflexivity.
Qed.

(** C5, as the code has it.  For an audio file whose header reports a
    channel count other than 1, given that the model directory exists, that
    the model loads and that the file opens as a WAV, [transcribe_audio]
    returns [{"success": False, "error": "Audio must be mono"}].  It has
    then made three calls only (the model check, the model constructor and
    [wave.open]): no frame is read and no recognizer is made, so the audio
    is neither resampled nor downmixed. *)
Theorem not_mono_rejected (env : environ) (audio_path : string) (st : pstate)
    (m : model env) (wf : wave_read) :
  path_exists env (MODEL_PATH env) = true ->
  Model env (MODEL_PATH env) = inr m ->
  wave_open env audio_path = inr wf ->
  nchannels wf <> 1 ->
  fst (transcribe_audio env audio_path st)
  = Ret (failure_result "Audio must be mono")
  /\ st_log (snd (transcribe_audio env audio_path st))
     = (st_log st ++ [EvExists (MODEL_PATH env); EvModel (MODEL_PATH env);
                      EvWaveOpen audio_path])%list.
Proof.
  intros Hex Hm Hw Hch.
  rewrite (transcribe_audio_not_mono env audio_path st m wf Hex Hm Hw Hch).
  split; reflexivity.
Qed.

(** C5 as stated fails: with the model directory in place but a model that
    does not load, a stereo WAV gets the model's error, not the mono one. *)
Lemma not_mono_needs_loaded_model :
  let env := Sample.sample_env Sample.Corrupt in
  path_exists env (MODEL_PATH env) = true
  /\ wave_open env "stereo.wav" = inr (mk_wave 2 2 44100 (repeat x01 64))
  /\ nchannels (mk_wave 2 2 44100 (repeat x01 64)) <> 1
  /\ fst (transcribe_audio env "stereo.wav" initial_state)
     = Ret (failure_result "Failed to create a model")
  /\ fst (transcribe_audio env "stereo.wav" initial_state)
     <> Ret (failure_result "Audio must be mono").
Proof.
  cbv zeta. split; [reflexivity|]. split; [reflexivity|].
  split; [discriminate|]. split; [reflexivity|].
  vm_compute. discriminate.
Qed.

(** C6. On the success path the text returned is the accumulated segments
    (each one a non-empty text, in recognition order, the final flush
    last) joined with single spaces and stripped.  Conversely such a run
    of the recognizer gives that success result; in particular, when the
    recognizer yields no non-empty text, the result is
    [{"success": True, "text": ""}]. *)
Theorem transcript_of_segments (env : environ) (audio_path : string)
    (st : pstate) :
  (forall d st',
      transcribe_audio env audio_path st = (Ret d, st') ->
      lookup "success" d = Some (FBool true) ->
      exists m wf r segs,
        path_exists env (MODEL_PATH env) = true
        /\ Model env (MODEL_PATH env) = inr m
        /\ wave_open env audio_path = inr wf
        /\ nchannels wf = 1
        /\ KaldiRecognizer env m (framerate wf) = inr r
        /\ spec_segments env (SetWords env r true) wf = Some (map JStr segs)
        /\ Forall (fun s => s <> "") segs
        /\ d = success_result (PyStr.strip (PyStr.join " " segs)))
  /\ (forall m wf r segs,
        path_exists env (MODEL_PATH env) = true ->
        Model env (MODEL_PATH env) = inr m ->
        wave_open env audio_path = inr wf ->
        nchannels wf = 1 ->
        KaldiRecognizer env m (framerate wf) = inr r ->
        spec_segments env (SetWords env r true) wf = Some (map JStr segs) ->
        fst (transcribe_audio env audio_path st)
        = Ret (success_result (PyStr.strip (PyStr.join " " segs))))
  /\ (forall m wf r,
        path_exists env (MODEL_PATH env) = true ->
        Model env (MODEL_PATH env) = inr m ->
        wave_open env audio_path = inr wf ->
        nchannels wf = 1 ->
        KaldiRecognizer env m (framerate wf) = inr r ->
        spec_segments env (SetWords env r true) wf = Some [] ->
        fst (transcribe_audio env audio_path st) = Ret (success_result "")).
Proof.
  assert (Hfwd : forall m wf r segs,
             path_exists env (MODEL_PATH env) = true ->
             Model env (MODEL_PATH env) = inr m ->
             wave_open env audio_path = inr wf ->
             nchannels wf = 1 ->
             KaldiRecognizer env m (framerate wf) = inr r ->
             spec_segments env (SetWords env r true) wf = Some (map JStr segs) ->
             fst (transcribe_audio env audio_path st)
             = Ret (success_result (PyStr.strip (PyStr.join " " segs)))).
  { intros m wf r segs Hex Hm Hw Hch Hr Hseg.
    destruct (body_returns_run env audio_path
                (success_result (spec_transcript segs)) st
                (returns_transcript env audio_path m wf r segs
                   Hex Hm Hw Hch Hr Hseg)) as [st' H].
    unfold transcribe_audio, try_except. rewrite H. reflexivity. }
  split; [|split].
  - intros d st' Hrun Hsucc.
    destruct (transcribe_audio_run env audio_path st)
      as (d0 & st0 & H & _ & Hcase).
    rewrite H in Hrun. injection Hrun as -> ->.
    destruct Hcase as [Hd | (e & _ & ->)]; [|discriminate Hsucc].
    destruct Hd as [Hex | m wf Hex Hm Hw Hch | m wf r segs Hex Hm Hw Hch Hr Hseg];
      try discriminate Hsucc.
    exists m, wf, r, segs. repeat (split; [assumption|]).
    split; [|reflexivity].
    apply truthy_strings.
    exact (spec_segments_truthy env _ _ _ Hseg).
  - exact Hfwd.
  - intros m wf r Hex Hm Hw Hch Hr Hseg.
    exact (Hfwd m wf r [] Hex Hm Hw Hch Hr Hseg).
Qed.

(** * The properties on the sample environment *)

Lemma transcribe_audio_never_raises_witness :
  transcribe_body (Sample.sample_env Sample.Installed) "broken.wav" initial_state
  = (Raise (mk_exc Exception_ "Failed to process waveform"),
     snd (transcribe_body (Sample.sample_env Sample.Installed) "broken.wav"
            initial_state))
  /\ transcribe_audio (Sample.sample_env Sample.Installed) "broken.wav"
       initial_state
     = (Ret (failure_result "Failed to process waveform"),
        snd (transcribe_body (Sample.sample_env Sample.Installed) "broken.wav"
               initial_state)).
Proof.
  split; [vm_compute; reflexivity|].
  apply (proj1 (proj2 (transcribe_audio_never_raises
                         (Sample.sample_env Sample.Installed) "broken.wav"
                         initial_state))
           (mk_exc Exception_ "Failed to process waveform")).
  vm_compute; reflexivity.
Defined.

Lemma model_not_found_witness :
  path_exists (Sample.sample_env Sample.Missing)
    (MODEL_PATH (Sample.sample_env Sample.Missing)) = false
  /\ fst (transcribe_audio (Sample.sample_env Sample.Missing) "speech.wav"
            initial_state)
     = Ret (failure_result "Vosk model not found").
Proof.
  split; [reflexivity|].
  apply (model_not_found (Sample.sample_env Sample.Missing) "speech.wav"
           initial_state).
  reflexivity.
Defined.

Lemma model_check_precedes_open_witness :
  path_exists (Sample.sample_env Sample.Missing)
    (MODEL_PATH (Sample.sample_env Sample.Missing)) = false
  /\ new_events initial_state
       (snd (transcribe_audio (Sample.sample_env Sample.Missing) "notes.txt"
               initial_state))
     = [EvExists (MODEL_PATH (Sample.sample_env Sample.Missing))].
Proof.
  split; [reflexivity|].
  apply (model_check_precedes_open (Sample.sample_env Sample.Missing)
           "notes.txt" initial_state).
  reflexivity.
Defined.

Lemma not_mono_rejected_witness :
  nchannels (mk_wave 2 2 44100 (repeat x01 64)) <> 1
  /\ fst (transcribe_audio (Sample.sample_env Sample.Installed) "stereo.wav"
            initial_state)
     = Ret (failure_result "Audio must be mono").
Proof.
  split; [discriminate|].
  apply (not_mono_rejected (Sample.sample_env Sample.Installed) "stereo.wav"
           initial_state tt (mk_wave 2 2 44100 (repeat x01 64)));
    [reflexivity | reflexivity | reflexivity | discriminate].
Defined.

Lemma transcript_of_segments_witness :
  fst (transcribe_audio (Sample.sample_env Sample.Installed) "speech.wav"
         initial_state)
  = Ret (success_result "lights on lights")
  /\ fst (transcribe_audio (Sample.sample_env Sample.Installed) "silence.wav"
            initial_state)
     = Ret (success_result "").
Proof.
  split.
  - apply (proj1 (proj2 (transcript_of_segments
                           (Sample.sample_env Sample.Installed) "speech.wav"
                           initial_state))
             tt (mk_wave 1 2 16000 Sample.speech_data) []
             ["lights on"; "lights"]);
      [reflexivity | reflexivity | reflexivity | reflexivity | reflexivity
      | vm_compute; reflexivity].
  - apply (proj2 (proj2 (transcript_of_segments
                           (Sample.sample_env Sample.Installed) "silence.wav"
                           initial_state))
             tt (mk_wave 1 2 16000 (repeat x00 12000)) []);
      [reflexivity | reflexivity | reflexivity | reflexivity | reflexivity
      | vm_compute; reflexivity].
Defined.

Lemma existing_file_exit_zero_witness :
  path_exists (Sample.sample_env Sample.Installed) "stereo.wav" = true
  /\ exists d st',
       transcribe_audio (Sample.sample_env Sample.Installed) "stereo.wav"
         (mk_state [] [EvExists "stereo.wav"] [])
       = (Ret d, st')
       /\ run_script (Sample.sample_env Sample.Installed) ["stt.py"; "stereo.wav"]
          = (Some 0, mk_state (st_open st') (st_log st') [Json.dumps d]).
Proof.
  split; [reflexivity|].
  apply (existing_file_exit_zero (Sample.sample_env Sample.Installed)
           "stt.py" "stereo.wav").
  reflexivity.
Defined.

Lemma usage_error_witness :
  List.length (@nil string) <> 1%nat
  /\ run_script (Sample.sample_env Sample.Installed) ["stt.py"]
     = (Some 1, mk_state [] [] [usage_line]).
Proof.
  split; [discriminate|].
  apply (usage_error (Sample.sample_env Sample.Installed) "stt.py" []).
  discriminate.
Defined.

Lemma file_not_found_witness :
  path_exists (Sample.sample_env Sample.Installed) "nothere.wav" = false
  /\ run_script (Sample.sample_env Sample.Installed) ["stt.py"; "nothere.wav"]
     = (Some 1,
        mk_state [] [EvExists "nothere.wav"]
          [Json.dumps (failure_result "File not found: nothere.wav")]).
Proof.
  split; [reflexivity|].
  apply (file_not_found (Sample.sample_env Sample.Installed) "stt.py"
           "nothere.wav").
  reflexivity.
Defined.

(** ** A few runs, for the record *)

Example strip_example : PyStr.strip "  hello world " = "hello world".
Proof. reflexivity. Qed.

Example join_example : PyStr.join " " ["a"; "b"; "c"] = "a b c".
Proof. reflexivity. Qed.

Example speech_run :
  run_script (Sample.sample_env Sample.Installed) ["stt.py"; "speech.wav"]
  = (Some 0,
     mk_state []
       (snd (run_script (Sample.sample_env Sample.Installed)
               ["stt.py"; "speech.wav"])).(st_log)
       [Json.dumps (success_result "lights on lights")]).
Proof. vm_compute. reflexivity. Qed.

Example unreadable_audio_run :
  fst (transcribe_audio (Sample.sample_env Sample.Installed) "notes.txt"
         initial_state)
  = Ret (failure_result "file does not start with RIFF id").
Proof. vm_compute. reflexivity. Qed.

Example two_arguments_run :
  run_script (Sample.sample_env Sample.Installed) ["stt.py"; "a.wav"; "b.wav"]
  = (Some 1, mk_state [] [] [usage_line]).
Proof. vm_compute. reflexivity. Qed.

(** * Further properties of the script *)

(** ** The command line *)

(** X1. Whatever the arguments, the script either runs to its end or
    stops in [sys.exit(1)], and never by an exception: it runs to its
    end, with status 0, exactly when there are two entries in [sys.argv]
    and the second names an existing path, and exits with status 1
    otherwise.  Either way it has printed exactly one line. *)
Theorem exit_status_of_script (env : environ) (argv : list string) :
  fst (main env argv initial_state)
  = (if ((List.length argv =? 2)%nat && path_exists env (nth 1 argv ""))%bool
     then Ret tt else Exit 1)
  /\ fst (run_script env argv)
     = Some (if ((List.length argv =? 2)%nat
                 && path_exists env (nth 1 argv ""))%bool
             then 0 else 1)
  /\ exists line, st_stdout (snd (run_script env argv)) = [line].
Proof.
  unfold run_script. rewrite main_eq.
  destruct (List.length argv =? 2)%nat; cbn [andb].
  - cbv zeta. destruct (path_exists env (nth 1 argv "")).
    + match goal with
      | |- context [transcribe_audio env ?p ?s] =>
          destruct (transcribe_audio_run env p s) as (d & st' & H & Hs & _)
      end.
      rewrite H. cbn [fst snd exit_status st_stdout]. rewrite Hs.
      split; [reflexivity|]. split; [reflexivity|]. eexists. reflexivity.
    + split; [reflexivity|]. split; [reflexivity|]. eexists. reflexivity.
  - split; [reflexivity|]. split; [reflexivity|]. eexists. reflexivity.
Qed.

(** ** The driver and the process state *)

(** X2. [transcribe_audio] writes nothing on standard output, on any
    path through it: printing is left to the caller. *)
Theorem driver_prints_nothing (env : environ) (audio_path : string)
    (st : pstate) :
  st_stdout (snd (transcribe_audio env audio_path st)) = st_stdout st.
Proof.
  destruct (transcribe_audio_run env audio_path st) as (d & st' & H & Hs & _).
  rewrite H. exact Hs.
Qed.

(** X3. Errors come in the order of the statements: when the model
    directory exists but the model does not load, the failure carries the
    model's error and [wave.open] is never called, so the audio file is
    neither opened nor looked at, valid or not. *)
Theorem model_failure_precedes_open (env : environ) (audio_path : string)
    (st : pstate) (e : pyexc) :
  path_exists env (MODEL_PATH env) = true ->
  Model env (MODEL_PATH env) = inl e ->
  transcribe_audio env audio_path st
  = (Ret (failure_result (exc_str e)),
     mk_state (st_open st)
       (st_log st ++ [EvExists (MODEL_PATH env); EvModel (MODEL_PATH env)])
       (st_stdout st)).
Proof.
  intros Hex Hm. unfold transcribe_audio, try_except.
  rewrite transcribe_body_eq. cbv zeta. rewrite Hex, Hm.
  rewrite <- !app_assoc. reflexivity.
Qed.

Lemma model_failure_precedes_open_witness :
  Model (Sample.sample_env Sample.Corrupt)
    (MODEL_PATH (Sample.sample_env Sample.Corrupt))
  = inl (mk_exc Exception_ "Failed to create a model")
  /\ transcribe_audio (Sample.sample_env Sample.Corrupt) "notes.txt"
       initial_state
     = (Ret (failure_result "Failed to create a model"),
        mk_state []
          [EvExists (MODEL_PATH (Sample.sample_env Sample.Corrupt));
           EvModel (MODEL_PATH (Sample.sample_env Sample.Corrupt))] []).
Proof.
  split; [reflexivity|].
  apply (model_failure_precedes_open (Sample.sample_env Sample.Corrupt)
           "notes.txt" initial_state
           (mk_exc Exception_ "Failed to create a model"));
    reflexivity.
Defined.

Lemma new_events_app (st st' : pstate) (evs : list event) :
  st_log st' = (st_log st ++ evs)%list -> new_events st st' = evs.
Proof.
  intros H. unfold new_events. rewrite H.
  rewrite skipn_app, skipn_all, Nat.sub_diag. reflexivity.
Qed.

(** X4. Neither early exit after [wave.open] calls [wf.close()]: after
    the not-mono return the calls made are the model check, the model
    constructor and [wave.open]; after a failure of the recognizer's
    constructor, whose text the result carries, they are those and the
    constructor.  No statement of the script closes the file there. *)
Theorem early_exits_make_no_close_call (env : environ) (audio_path : string)
    (st : pstate) (m : model env) (wf : wave_read) :
  path_exists env (MODEL_PATH env) = true ->
  Model env (MODEL_PATH env) = inr m ->
  wave_open env audio_path = inr wf ->
  (nchannels wf <> 1 ->
   new_events st (snd (transcribe_audio env audio_path st))
   = [EvExists (MODEL_PATH env); EvModel (MODEL_PATH env);
      EvWaveOpen audio_path])
  /\ (forall e,
        nchannels wf = 1 ->
        KaldiRecognizer env m (framerate wf) = inl e ->
        fst (transcribe_audio env audio_path st)
        = Ret (failure_result (exc_str e))
        /\ new_events st (snd (transcribe_audio env audio_path st))
           = [EvExists (MODEL_PATH env); EvModel (MODEL_PATH env);
              EvWaveOpen audio_path; EvKaldiRecognizer (framerate wf)]).
Proof.
  intros Hex Hm Hw. split.
  - intros Hch.
    rewrite (transcribe_audio_not_mono env audio_path st m wf Hex Hm Hw Hch).
    apply new_events_app. reflexivity.
  - intros e Hch Hr. unfold transcribe_audio, try_except.
    rewrite transcribe_body_eq. cbv zeta. rewrite Hex, Hm, Hw, Hch, Hr.
    split; [reflexivity|].
    apply new_events_app. cbn [snd ret st_log]. rewrite <- !app_assoc.
    reflexivity.
Qed.

Lemma early_exits_make_no_close_call_witness :
  nchannels (mk_wave 2 2 44100 (repeat x01 64)) <> 1
  /\ new_events (mk_state [] [EvExists "stereo.wav"] [])
       (snd (transcribe_audio (Sample.sample_env Sample.Installed)
               "stereo.wav" (mk_state [] [EvExists "stereo.wav"] [])))
     = [EvExists (MODEL_PATH (Sample.sample_env Sample.Installed));
        EvModel (MODEL_PATH (Sample.sample_env Sample.Installed));
        EvWaveOpen "stereo.wav"].
Proof.
  split; [discriminate|].
  apply (proj1 (early_exits_make_no_close_call
                  (Sample.sample_env Sample.Installed) "stereo.wav"
                  (mk_state [] [EvExists "stereo.wav"] []) tt
                  (mk_wave 2 2 44100 (repeat x01 64))
                  eq_refl eq_refl eq_refl)).
  discriminate.
Defined.

(** ** The read loop and the audio data *)

Lemma accepted_lengths_app (evs1 evs2 : list event) :
  accepted_lengths (evs1 ++ evs2)
  = (accepted_lengths evs1 ++ accepted_lengths evs2)%list.
Proof.
  induction evs1 as [|ev evs1 IH]; [reflexivity|].
  destruct ev; cbn [app accepted_lengths]; rewrite IH; reflexivity.
Qed.

Lemma firstn_nil_skipn (n : nat) (l : list byte) :
  firstn n l = [] ->
  firstn n (skipn n l) = [] /\ List.length (skipn n l) = List.length l.
Proof.
  intros H. destruct n as [|n]; [split; reflexivity|].
  destruct l as [|b l]; [split; reflexivity | discriminate H].
Qed.

(** One more iteration in front of a run that satisfies [loop_post]. *)
Lemma loop_post_step {A : Type} (wf : wave_read) (st st2 : pstate)
    (pre : list event) (b : byte) (data : list byte)
    (r : outcome (wave_read * A * list jsonval) * pstate) :
  firstn (chunk_size wf) (frames wf) = b :: data ->
  st_open st2 = st_open st ->
  st_stdout st2 = st_stdout st ->
  st_log st2 = (st_log st ++ pre)%list ->
  (forall p, ~ In (EvWaveClose p) pre) ->
  accepted_lengths pre = [List.length (b :: data)] ->
  loop_post (mk_wave (nchannels wf) (sampwidth wf) (framerate wf)
                     (skipn (chunk_size wf) (frames wf))) st2 r ->
  loop_post wf st r.
Proof.
  intros Hdata Ho2 Hs2 Hl2 Hpre Hacc (Ho & Hs & evs & Hlog & Hcl & Hall & Hret).
  unfold chunk_size in Hall, Hret. cbn [nchannels sampwidth frames] in Hall, Hret.
  fold (chunk_size wf) in Hall, Hret.
  assert (Hlen : (List.length (b :: data)
                  + List.length (skipn (chunk_size wf) (frames wf))
                  = List.length (frames wf))%nat).
  { rewrite <- Hdata, <- length_app, firstn_skipn. reflexivity. }
  assert (Hle : (1 <= List.length (b :: data) <= chunk_size wf)%nat).
  { split; [simpl; lia|]. rewrite <- Hdata. apply firstn_le_length. }
  split; [rewrite Ho; exact Ho2|]. split; [rewrite Hs; exact Hs2|].
  exists (pre ++ evs)%list. split; [rewrite Hlog, Hl2, app_assoc; reflexivity|].
  split.
  { intros p Hin. apply in_app_or in Hin. destruct Hin as [Hin|Hin].
    - exact (Hpre p Hin).
    - exact (Hcl p Hin). }
  rewrite accepted_lengths_app, Hacc. split.
  { constructor; [exact Hle | exact Hall]. }
  destruct (fst r) as [[[wf' r'] res]|e|c|]; try exact I.
  destruct Hret as [Hfn Hsum]. split; [exact Hfn|].
  cbn [app].
  change (list_sum (List.length (b :: data) :: accepted_lengths evs))
    with (List.length (b :: data) + list_sum (accepted_lengths evs))%nat.
  lia.
Qed.

Section LoopTrace.

Variable env : environ.

(** Every run of the loop, however it ends, satisfies [loop_post]. *)
Lemma read_loop_post (fuel : nat) :
  forall (wf : wave_read) (rec : recognizer env) (acc : list jsonval)
         (st : pstate),
    loop_post wf st (read_loop env fuel wf rec acc st).
Proof.
  induction fuel as [|fuel IH]; intros wf rec acc st.
  - cbn [read_loop]. unfold out_of_fuel, loop_post. cbn [fst snd].
    split; [reflexivity|]. split; [reflexivity|]. exists [].
    split; [rewrite app_nil_r; reflexivity|].
    split; [intros p []|]. split; [constructor | exact I].
  - rewrite read_loop_step. cbv zeta. fold (chunk_size wf).
    destruct (firstn (chunk_size wf) (frames wf)) as [|b data] eqn:Hdata.
    { unfold loop_post. cbn [fst snd st_open st_stdout st_log frames].
      split; [reflexivity|]. split; [reflexivity|].
      exists [EvReadFrames 4000]. split; [reflexivity|].
      split; [intros p [H|[]]; discriminate H|].
      split; [constructor|].
      destruct (firstn_nil_skipn _ _ Hdata) as [H1 H2].
      split; [exact H1|]. cbn [accepted_lengths]. exact H2. }
    assert (Hstop : forall e (st2 : pstate) (pre : list event),
               st_open st2 = st_open st -> st_stdout st2 = st_stdout st ->
               st_log st2 = (st_log st ++ pre)%list ->
               (forall p, ~ In (EvWaveClose p) pre) ->
               accepted_lengths pre = [List.length (b :: data)] ->
               @loop_post (recognizer env) wf st (Raise e, st2)).
    { intros e st2 pre Ho2 Hs2 Hl2 Hpre Hacc.
      apply (loop_post_step wf st st2 pre b data _ Hdata Ho2 Hs2 Hl2 Hpre Hacc).
      unfold loop_post. cbn [fst snd].
      split; [reflexivity|]. split; [reflexivity|]. exists [].
      split; [rewrite app_nil_r; reflexivity|].
      split; [intros p []|]. split; [constructor | exact I]. }
    assert (Hpre2 : forall p,
               ~ In (EvWaveClose p)
                    [EvReadFrames 4000; EvAcceptWaveform (List.length (b :: data))]).
    { intros p [H|[H|[]]]; discriminate H. }
    assert (Hpre3 : forall p,
               ~ In (EvWaveClose p)
                    [EvReadFrames 4000; EvAcceptWaveform (List.length (b :: data));
                     EvResult]).
    { intros p [H|[H|[H|[]]]]; discriminate H. }
    assert (Hrec2 : forall rec1 acc1,
               loop_post wf st
                 (read_loop env fuel
                    (mk_wave (nchannels wf) (sampwidth wf) (framerate wf)
                             (skipn (chunk_size wf) (frames wf)))
                    rec1 acc1
                    (mk_state (st_open st)
                       ((st_log st ++ [EvReadFrames 4000])
                          ++ [EvAcceptWaveform (List.length (b :: data))])
                       (st_stdout st)))).
    { intros rec1 acc1.
      apply (loop_post_step wf st
               (mk_state (st_open st)
                  ((st_log st ++ [EvReadFrames 4000])
                     ++ [EvAcceptWaveform (List.length (b :: data))])
                  (st_stdout st))
               [EvReadFrames 4000; EvAcceptWaveform (List.length (b :: data))]
               b data _ Hdata eq_refl eq_refl).
      - cbn [st_log]. rewrite <- app_assoc. reflexivity.
      - exact Hpre2.
      - reflexivity.
      - apply IH. }
    assert (Hrec3 : forall rec1 acc1,
               loop_post wf st
                 (read_loop env fuel
                    (mk_wave (nchannels wf) (sampwidth wf) (framerate wf)
                             (skipn (chunk_size wf) (frames wf)))
                    rec1 acc1
                    (mk_state (st_open st)
                       (((st_log st ++ [EvReadFrames 4000])
                           ++ [EvAcceptWaveform (List.length (b :: data))])
                          ++ [EvResult])
                       (st_stdout st)))).
    { intros rec1 acc1.
      apply (loop_post_step wf st
               (mk_state (st_open st)
                  (((st_log st ++ [EvReadFrames 4000])
                      ++ [EvAcceptWaveform (List.length (b :: data))])
                     ++ [EvResult])
                  (st_stdout st))
               [EvReadFrames 4000; EvAcceptWaveform (List.length (b :: data));
                EvResult]
               b data _ Hdata eq_refl eq_refl).
      - cbn [st_log]. rewrite <- !app_assoc. reflexivity.
      - exact Hpre3.
      - reflexivity.
      - apply IH. }
    destruct (AcceptWaveform env rec (b :: data)) as [e | [accepted rec1]].
    { apply (Hstop e _ [EvReadFrames 4000;
                        EvAcceptWaveform (List.length (b :: data))]);
        [reflexivity | reflexivity | | exact Hpre2 | reflexivity].
      cbn [st_log]. rewrite <- app_assoc. reflexivity. }
    destruct (accepted =? 0); [apply Hrec2|].
    assert (Hstop3 : forall e,
               @loop_post (recognizer env) wf st
                 (Raise e,
                  mk_state (st_open st)
                    (((st_log st ++ [EvReadFrames 4000])
                        ++ [EvAcceptWaveform (List.length (b :: data))])
                       ++ [EvResult])
                    (st_stdout st))).
    { intros e.
      apply (Hstop e _ [EvReadFrames 4000;
                        EvAcceptWaveform (List.length (b :: data)); EvResult]);
        [reflexivity | reflexivity | | exact Hpre3 | reflexivity].
      cbn [st_log]. rewrite <- !app_assoc. reflexivity. }
    destruct (Result env rec1) as [e | [s rec2]]; [apply Hstop3|].
    destruct (json_loads env s) as [e | v]; [apply Hstop3|].
    destruct v as [| bb | z | k | str | l | d]; try apply Hstop3.
    destruct (lookup "text" d) as [t|]; [|apply Hrec3].
    destruct (truthy t); apply Hrec3.
Qed.

End LoopTrace.

(** X5. When the loop ends normally, no audio is left unread and none was
    skipped or fed twice: the lengths of the chunks handed to
    [AcceptWaveform] add up to the length of the audio data, and each
    chunk has at least one byte and at most 4000 frames.  The last,
    shorter chunk is fed like the others. *)
Theorem loop_feeds_all_audio (env : environ) (fuel : nat) (wf wf' : wave_read)
    (rec rec' : recognizer env) (acc res : list jsonval) (st st' : pstate) :
  (0 < chunk_size wf)%nat ->
  read_loop env fuel wf rec acc st = (Ret (wf', rec', res), st') ->
  frames wf' = []
  /\ exists evs,
      st_log st' = (st_log st ++ evs)%list
      /\ list_sum (accepted_lengths evs) = List.length (frames wf)
      /\ Forall (fun n => (1 <= n <= chunk_size wf)%nat) (accepted_lengths evs).
Proof.
  intros Hpos Hrun.
  destruct (read_loop_post env fuel wf rec acc st)
    as (_ & _ & evs & Hlog & _ & Hall & Hret).
  rewrite Hrun in Hlog, Hret. cbn [fst snd] in Hlog, Hret.
  destruct Hret as [Hfn Hsum].
  assert (Hnil : frames wf' = []).
  { destruct (chunk_size wf) as [|n]; [lia|].
    destruct (frames wf') as [|b l]; [reflexivity | discriminate Hfn]. }
  split; [exact Hnil|]. exists evs. split; [exact Hlog|]. split; [|exact Hall].
  rewrite Hnil in Hsum. cbn [List.length] in Hsum. lia.
Qed.

Lemma loop_feeds_all_audio_witness :
  (0 < chunk_size (mk_wave 1 2 16000 Sample.speech_data))%nat
  /\ exists wf' rec' res st',
       read_loop (Sample.sample_env Sample.Installed)
         (S (List.length Sample.speech_data))
         (mk_wave 1 2 16000 Sample.speech_data) [] [] initial_state
       = (Ret (wf', rec', res), st')
       /\ frames wf' = [].
Proof.
  assert (Hpos : (0 < chunk_size (mk_wave 1 2 16000 Sample.speech_data))%nat).
  { apply Nat.ltb_lt. vm_compute. reflexivity. }
  split; [exact Hpos|].
  eexists _, _, _, _. split; [vm_compute; reflexivity|].
  refine (proj1 (loop_feeds_all_audio (Sample.sample_env Sample.Installed)
                   (S (List.length Sample.speech_data))
                   (mk_wave 1 2 16000 Sample.speech_data) _ [] _ [] _
                   initial_state _ Hpos _)).
  vm_compute. reflexivity.
Defined.

(** ** After the loop *)

Section FinishProofs.

Variable env : environ.

(** The statements after the loop, one by one, on the state. *)
Lemma transcribe_finish_eq (audio_path : string) (rec : recognizer env)
    (results : list jsonval) (st : pstate) :
  let st1 := mk_state (st_open st) (st_log st ++ [EvFinalResult])
                      (st_stdout st) in
  let st2 := mk_state (remove_first audio_path (st_open st))
                      ((st_log st ++ [EvFinalResult]) ++ [EvWaveClose audio_path])
                      (st_stdout st) in
  transcribe_finish env audio_path rec results st =
  match FinalResult env rec with
  | inl e => (Raise e, st1)
  | inr (s, _) =>
      match json_loads env s with
      | inl e => (Raise e, st1)
      | inr v =>
          match v with
          | JDict d =>
              match all_str 0
                      (match lookup "text" d with
                       | Some t => if truthy t then results ++ [t] else results
                       | None => results
                       end) with
              | inr ss =>
                  (Ret (success_result (PyStr.strip (PyStr.join " " ss))), st2)
              | inl (i, bad) =>
                  (Raise (mk_exc TypeError_
                            ("sequence item " ++ PyStr.of_nat i
                             ++ ": expected str instance, "
                             ++ type_name bad ++ " found")), st2)
              end
          | _ =>
              (Raise (mk_exc AttributeError_
                        (PyStr.squote ++ type_name v ++ PyStr.squote
                         ++ " object has no attribute "
                         ++ PyStr.squote ++ "get" ++ PyStr.squote)), st1)
          end
      end
  end.
Proof.
  intros st1 st2.
  assert (Hend : forall results0,
             (wave_close audio_path ;;;
              text <- str_join " " results0 ;;
              ret (success_result (PyStr.strip text))) st1
             = match all_str 0 results0 with
               | inr ss =>
                   (Ret (success_result (PyStr.strip (PyStr.join " " ss))), st2)
               | inl (i, bad) =>
                   (Raise (mk_exc TypeError_
                             ("sequence item " ++ PyStr.of_nat i
                              ++ ": expected str instance, "
                              ++ type_name bad ++ " found")), st2)
               end).
  { intros results0. unfold wave_close. rewrite bind_assoc, bind_log.
    unfold bind at 1. cbn [st_open st_log st_stdout]. unfold str_join.
    destruct (all_str 0 results0) as [[i bad]|ss]; reflexivity. }
  unfold transcribe_finish, rec_FinalResult.
  rewrite bind_assoc, bind_log.
  destruct (FinalResult env rec) as [e | [s r'']]; [reflexivity|].
  rewrite bind_lift_inr.
  destruct (json_loads env s) as [e | v]; [reflexivity|].
  rewrite bind_lift_inr.
  destruct v as [| bb | z | k | str | l | d]; try reflexivity.
  cbn [py_get]. rewrite bind_unit.
  destruct (lookup "text" d) as [t|] eqn:Hlk.
  - destruct (truthy t).
    + cbn [py_getitem]. rewrite Hlk.
      rewrite bind_assoc, bind_unit, bind_unit. apply Hend.
    + rewrite bind_unit. apply Hend.
  - cbn [truthy]. rewrite bind_unit. apply Hend.
Qed.

(** A mono file with model and recognizer in place: either feeding the
    chunks fails, and the body raises with the file open, or the body
    goes on to the statements after the loop, the file open and nothing
    closed so far. *)
Lemma transcribe_body_reaches_finish (audio_path : string) (st : pstate)
    (m : model env) (wf : wave_read) (r : recognizer env) :
  path_exists env (MODEL_PATH env) = true ->
  Model env (MODEL_PATH env) = inr m ->
  wave_open env audio_path = inr wf ->
  nchannels wf = 1 ->
  KaldiRecognizer env m (framerate wf) = inr r ->
  match spec_feed env (SetWords env r true) (spec_chunks wf) with
  | Some (segs, r') =>
      exists st1,
        transcribe_body env audio_path st
        = transcribe_finish env audio_path r' segs st1
        /\ st_open st1 = audio_path :: st_open st
        /\ st_stdout st1 = st_stdout st
        /\ exists evs, st_log st1 = (st_log st ++ evs)%list
                       /\ forall p, ~ In (EvWaveClose p) evs
  | None =>
      exists e st',
        transcribe_body env audio_path st = (Raise e, st')
        /\ st_open st' = audio_path :: st_open st
  end.
Proof.
  intros Hex Hm Hw Hmono Hr.
  rewrite transcribe_body_eq. cbv zeta.
  rewrite Hex, Hm, Hw, Hmono, Hr. cbn [Z.eqb Pos.eqb].
  match goal with
  | |- context [bind (read_loop _ _ _ _ _) _ ?s] => set (st0 := s)
  end.
  destruct (read_loop_feed env (List.length (frames wf))
              (S (List.length (frames wf))) wf (SetWords env r true) [] st0
              (le_n _) (Nat.lt_succ_diag_r _))
    as (st1 & [Ho Hs] & Hloop).
  destruct (read_loop_post env (S (List.length (frames wf))) wf
              (SetWords env r true) [] st0)
    as (_ & _ & evs & Hlog & Hcl & _).
  unfold spec_chunks.
  destruct (spec_feed env (SetWords env r true) _) as [[segs r']|].
  - destruct Hloop as [wf' Hloop]. cbn [app] in Hloop.
    rewrite Hloop in Hlog. cbn [snd] in Hlog.
    exists st1. split; [rewrite (bind_ret_eq _ _ _ _ _ Hloop); reflexivity|].
    split; [exact Ho|]. split; [exact Hs|].
    eexists. split.
    + rewrite Hlog. unfold st0. cbn [st_log]. rewrite <- !app_assoc.
      reflexivity.
    + intros p Hin. repeat (apply in_app_or in Hin; destruct Hin as [Hin|Hin]);
        try exact (Hcl p Hin);
        repeat (destruct Hin as [Hin|Hin]; [discriminate Hin|]);
        try destruct Hin.
  - destruct Hloop as [e Hloop]. exists e, st1.
    split; [exact (bind_raise_eq _ _ _ _ _ Hloop) | exact Ho].
Qed.

End FinishProofs.

Lemma all_str_bad_last (ss : list string) (t : jsonval) :
  (forall x, t <> JStr x) ->
  forall i, all_str i (map JStr ss ++ [t]) = inl ((i + List.length ss)%nat, t).
Proof.
  intros Ht. induction ss as [|s ss IH]; intros i.
  - cbn [map app List.length]. rewrite Nat.add_0_r.
    destruct t; try reflexivity. now destruct (Ht s).
  - cbn [map app all_str List.length]. rewrite IH.
    rewrite Nat.add_succ_r. reflexivity.
Qed.

(** X6. A successful call leaves the open files as it found them: the
    audio file it opened is closed, once, and [wf.close()] is the last
    call made. *)
Theorem success_closes_audio_file (env : environ) (audio_path : string)
    (st st' : pstate) (d : dict) :
  transcribe_audio env audio_path st = (Ret d, st') ->
  lookup "success" d = Some (FBool true) ->
  st_open st' = st_open st
  /\ exists evs,
      st_log st' = (st_log st ++ evs ++ [EvWaveClose audio_path])%list
      /\ forall p, ~ In (EvWaveClose p) evs.
Proof.
  intros Hrun Hsucc.
  destruct (transcribe_audio_run env audio_path st)
    as (d0 & st0 & H & _ & Hcase).
  rewrite H in Hrun. injection Hrun as -> ->.
  destruct Hcase as [Hd | (e & _ & ->)]; [|discriminate Hsucc].
  destruct Hd as [Hex | m wf Hex Hm Hw Hch | m wf r segs Hex Hm Hw Hch Hr Hseg];
    try discriminate Hsucc.
  pose proof (transcribe_body_reaches_finish env audio_path st m wf r
                Hex Hm Hw Hch Hr) as Hreach.
  unfold spec_segments in Hseg.
  destruct (spec_feed env (SetWords env r true) (spec_chunks wf))
    as [[vs r']|]; [|discriminate Hseg].
  destruct Hreach as (st1 & Hbody & Ho1 & _ & evs & Hlog1 & Hcl).
  unfold transcribe_audio, try_except in H. rewrite Hbody in H.
  rewrite transcribe_finish_eq in H. cbv zeta in H.
  destruct (FinalResult env r') as [e|[s r'']]; [discriminate H|].
  destruct (json_loads env s) as [e|v]; [discriminate H|].
  destruct v as [| bb | z | k | str | l | dd]; try discriminate H.
  destruct (all_str 0 _) as [[i bad]|ss]; [discriminate H|].
  injection H as _ <-. cbn [st_open st_log].
  split; [rewrite Ho1; apply remove_first_head|].
  exists (evs ++ [EvFinalResult])%list. split.
  - rewrite Hlog1, <- !app_assoc. reflexivity.
  - intros p Hin. apply in_app_or in Hin. destruct Hin as [Hin|[Hin|[]]].
    + exact (Hcl p Hin).
    + discriminate Hin.
Qed.

Lemma success_closes_audio_file_witness :
  st_open (snd (transcribe_audio (Sample.sample_env Sample.Installed)
                  "speech.wav" (mk_state ["other.wav"] [] [])))
  = ["other.wav"].
Proof.
  refine (proj1 (success_closes_audio_file (Sample.sample_env Sample.Installed)
                   "speech.wav" (mk_state ["other.wav"] [] []) _
                   (success_result "lights on lights") _ _)).
  - vm_compute. reflexivity.
  - reflexivity.
Defined.

(** X7. When the final result of the recognizer is not a JSON object, the
    call fails with the text of the [AttributeError] that [final.get]
    raises; the failure comes before [wf.close()], which is never
    called. *)
Theorem final_result_not_an_object (env : environ) (audio_path : string)
    (st : pstate) (m : model env) (wf : wave_read) (r r' r'' : recognizer env)
    (segs : list jsonval) (s : string) (v : jsonval) :
  path_exists env (MODEL_PATH env) = true ->
  Model env (MODEL_PATH env) = inr m ->
  wave_open env audio_path = inr wf ->
  nchannels wf = 1 ->
  KaldiRecognizer env m (framerate wf) = inr r ->
  spec_feed env (SetWords env r true) (spec_chunks wf) = Some (segs, r') ->
  FinalResult env r' = inr (s, r'') ->
  json_loads env s = inr v ->
  (forall d, v <> JDict d) ->
  fst (transcribe_audio env audio_path st)
  = Ret (failure_result (PyStr.squote ++ type_name v ++ PyStr.squote
                         ++ " object has no attribute "
                         ++ PyStr.squote ++ "get" ++ PyStr.squote))
  /\ forall p,
      ~ In (EvWaveClose p)
           (new_events st (snd (transcribe_audio env audio_path st))).
Proof.
  intros Hex Hm Hw Hch Hr Hfeed Hfin Hloads Hv.
  pose proof (transcribe_body_reaches_finish env audio_path st m wf r
                Hex Hm Hw Hch Hr) as Hreach.
  rewrite Hfeed in Hreach.
  destruct Hreach as (st1 & Hbody & _ & _ & evs & Hlog1 & Hcl).
  assert (Hnew : forall e,
             forall p,
               ~ In (EvWaveClose p)
                    (new_events st
                       (snd (@ret dict (failure_result (exc_str e))
                               (mk_state (st_open st1)
                                  (st_log st1 ++ [EvFinalResult])
                                  (st_stdout st1)))))).
  { intros e p. cbn [snd ret].
    rewrite (new_events_app st _ (evs ++ [EvFinalResult])).
    - intros Hin. apply in_app_or in Hin. destruct Hin as [Hin|[Hin|[]]].
      + exact (Hcl p Hin).
      + discriminate Hin.
    - cbn [st_log]. rewrite Hlog1, <- app_assoc. reflexivity. }
  unfold transcribe_audio, try_except. rewrite Hbody.
  rewrite transcribe_finish_eq. cbv zeta. rewrite Hfin, Hloads.
  destruct v as [| bb | z | k | str | l | dd];
    try (split; [reflexivity | apply Hnew]).
  now destruct (Hv dd).
Qed.

Lemma final_result_not_an_object_witness :
  fst (transcribe_audio
         (with_json_loads (Sample.sample_env Sample.Installed)
            (fun _ => inr (JList [])))
         "silence.wav" initial_state)
  = Ret (failure_result "'list' object has no attribute 'get'").
Proof.
  refine (proj1 (final_result_not_an_object
                   (with_json_loads (Sample.sample_env Sample.Installed)
                      (fun _ => inr (JList [])))
                   "silence.wav" initial_state tt
                   (mk_wave 1 2 16000 (repeat x00 12000)) [] [] [] []
                   _ (JList [])
                   eq_refl eq_refl eq_refl eq_refl eq_refl _ eq_refl eq_refl _)).
  - vm_compute. reflexivity.
  - intros d H. discriminate H.
Defined.

(** X8. When the text of the final result is there but is not a string
    (the texts kept before it being strings), the call fails with the
    [TypeError] of [" ".join], which names the position and the type of
    the item; the join comes after [wf.close()], so this failure leaves
    the audio file closed. *)
Theorem text_not_a_string (env : environ) (audio_path : string)
    (st : pstate) (m : model env) (wf : wave_read) (r r' r'' : recognizer env)
    (ss : list string) (s : string) (d : list (string * jsonval))
    (t : jsonval) :
  path_exists env (MODEL_PATH env) = true ->
  Model env (MODEL_PATH env) = inr m ->
  wave_open env audio_path = inr wf ->
  nchannels wf = 1 ->
  KaldiRecognizer env m (framerate wf) = inr r ->
  spec_feed env (SetWords env r true) (spec_chunks wf) = Some (map JStr ss, r') ->
  FinalResult env r' = inr (s, r'') ->
  json_loads env s = inr (JDict d) ->
  lookup "text" d = Some t ->
  truthy t = true ->
  (forall x, t <> JStr x) ->
  fst (transcribe_audio env audio_path st)
  = Ret (failure_result
           ("sequence item " ++ PyStr.of_nat (List.length ss)
            ++ ": expected str instance, " ++ type_name t ++ " found"))
  /\ st_open (snd (transcribe_audio env audio_path st)) = st_open st.
Proof.
  intros Hex Hm Hw Hch Hr Hfeed Hfin Hloads Hlk Htruthy Ht.
  pose proof (transcribe_body_reaches_finish env audio_path st m wf r
                Hex Hm Hw Hch Hr) as Hreach.
  rewrite Hfeed in Hreach. destruct Hreach as (st1 & Hbody & Ho1 & _).
  unfold transcribe_audio, try_except. rewrite Hbody.
  rewrite transcribe_finish_eq. cbv zeta. rewrite Hfin, Hloads, Hlk, Htruthy.
  rewrite (all_str_bad_last ss t Ht 0). cbn [Nat.add fst snd st_open].
  split; [reflexivity|]. rewrite Ho1. apply remove_first_head.
Qed.

Lemma text_not_a_string_witness :
  fst (transcribe_audio
         (with_json_loads (Sample.sample_env Sample.Installed)
            (fun _ => inr (JDict [("text", JInt 7)])))
         "silence.wav" initial_state)
  = Ret (failure_result "sequence item 0: expected str instance, int found").
Proof.
  refine (proj1 (text_not_a_string
                   (with_json_loads (Sample.sample_env Sample.Installed)
                      (fun _ => inr (JDict [("text", JInt 7)])))
                   "silence.wav" initial_state tt
                   (mk_wave 1 2 16000 (repeat x00 12000)) [] [] [] []
                   _ [("text", JInt 7)] (JInt 7)
                   eq_refl eq_refl eq_refl eq_refl eq_refl _ eq_refl eq_refl
                   eq_refl eq_refl _)).
  - vm_compute. reflexivity.
  - intros x H. discriminate H.
Defined.

(** X9. A mono file with no audio frames: the loop reads once, gets
    nothing and stops, the recognizer is never fed, and the result is the
    text of the final flush alone, stripped.  The calls made are exactly
    the eight listed. *)
Theorem empty_audio_gives_final_text (env : environ) (audio_path : string)
    (st : pstate) (m : model env) (wf : wave_read) (r r' : recognizer env)
    (s : string) (d : list (string * jsonval)) (t : string) :
  path_exists env (MODEL_PATH env) = true ->
  Model env (MODEL_PATH env) = inr m ->
  wave_open env audio_path = inr wf ->
  nchannels wf = 1 ->
  frames wf = [] ->
  KaldiRecognizer env m (framerate wf) = inr r ->
  FinalResult env (SetWords env r true) = inr (s, r') ->
  json_loads env s = inr (JDict d) ->
  lookup "text" d = Some (JStr t) ->
  transcribe_audio env audio_path st
  = (Ret (success_result (PyStr.strip t)),
     mk_state (st_open st)
       (st_log st ++ [EvExists (MODEL_PATH env); EvModel (MODEL_PATH env);
                      EvWaveOpen audio_path; EvKaldiRecognizer (framerate wf);
                      EvSetWords true; EvReadFrames 4000; EvFinalResult;
                      EvWaveClose audio_path])
       (st_stdout st)).
Proof.
  intros Hex Hm Hw Hch Hfr Hr Hfin Hloads Hlk.
  unfold transcribe_audio, try_except.
  rewrite transcribe_body_eq. cbv zeta.
  rewrite Hex, Hm, Hw, Hch, Hr. cbn [Z.eqb Pos.eqb].
  rewrite Hfr. cbn [List.length]. unfold bind.
  rewrite read_loop_step. cbv zeta. rewrite Hfr, firstn_nil.
  cbn [fst snd]. rewrite transcribe_finish_eq. cbv zeta.
  rewrite Hfin, Hloads, Hlk. cbn [st_open st_log st_stdout app].
  rewrite remove_first_head.
  assert (Htext : match all_str 0 (if truthy (JStr t) then [JStr t] else []) with
                  | inr ss => PyStr.strip (PyStr.join " " ss) = PyStr.strip t
                  | inl _ => False
                  end).
  { cbn [truthy]. destruct (String.eqb t "") eqn:Ht; cbn [negb all_str].
    - apply String.eqb_eq in Ht. subst t. reflexivity.
    - reflexivity. }
  destruct (all_str 0 (if truthy (JStr t) then [JStr t] else []))
    as [[i bad]|ss]; [destruct Htext|].
  rewrite Htext. rewrite <- !app_assoc. reflexivity.
Qed.

Lemma empty_audio_gives_final_text_witness :
  fst (transcribe_audio
         (with_audio (Sample.sample_env Sample.Installed) (mk_wave 1 2 16000 []))
         "silence.wav" initial_state)
  = Ret (success_result "").
Proof.
  refine (f_equal fst
            (empty_audio_gives_final_text
               (with_audio (Sample.sample_env Sample.Installed)
                  (mk_wave 1 2 16000 []))
               "silence.wav" initial_state tt (mk_wave 1 2 16000 []) [] []
               _ [("text", JStr "")] ""
               eq_refl eq_refl eq_refl eq_refl eq_refl eq_refl eq_refl _ eq_refl)).
  vm_compute. reflexivity.
Defined.

(** ** What is printed *)

Lemma all_printable_app (a b : string) :
  all_printable (a ++ b) = (all_printable a && all_printable b)%bool.
Proof.
  induction a as [|c a IH]; [reflexivity|].
  cbn [append all_printable]. rewrite IH. apply andb_assoc.
Qed.

Lemma escape_char_printable (c : ascii) :
  all_printable (Json.escape_char c) = true.
Proof. destruct c as [[] [] [] [] [] [] [] []]; vm_compute; reflexivity. Qed.

Lemma escape_printable (s : string) : all_printable (Json.escape s) = true.
Proof.
  induction s as [|c s IH]; [reflexivity|].
  cbn [Json.escape]. rewrite all_printable_app, escape_char_printable, IH.
  reflexivity.
Qed.

Lemma quote_printable (s : string) : all_printable (Json.quote s) = true.
Proof.
  unfold Json.quote. rewrite !all_printable_app, escape_printable. reflexivity.
Qed.

Lemma dump_item_printable (kv : string * field) :
  all_printable (Json.dump_item kv) = true.
Proof.
  unfold Json.dump_item. rewrite !all_printable_app, quote_printable.
  destruct (snd kv) as [[]|s]; cbn [Json.dump_field];
    [reflexivity | reflexivity | rewrite quote_printable; reflexivity].
Qed.

Lemma join_printable (sep : string) (l : list string) :
  all_printable sep = true ->
  Forall (fun x => all_printable x = true) l ->
  all_printable (PyStr.join sep l) = true.
Proof.
  intros Hsep. induction l as [|x l IH]; intros Hl; [reflexivity|].
  inversion Hl as [|? ? Hx Hrest]; subst.
  destruct l as [|y l]; [exact Hx|].
  change (PyStr.join sep (x :: y :: l)) with (x ++ sep ++ PyStr.join sep (y :: l)).
  rewrite !all_printable_app, Hx, Hsep, (IH Hrest). reflexivity.
Qed.

Lemma dumps_printable (d : dict) : all_printable (Json.dumps d) = true.
Proof.
  unfold Json.dumps. rewrite !all_printable_app.
  rewrite join_printable; [reflexivity | reflexivity |].
  apply Forall_forall. intros x Hin. apply in_map_iff in Hin.
  destruct Hin as (kv & <- & _). apply dump_item_printable.
Qed.

(** *** Any code points *)

Lemma hex_digit_printable (m : nat) :
  (m < 16)%nat -> printable (Json.hex_digit m) = true.
Proof.
  intros H. do 16 (destruct m as [|m]; [reflexivity|]). lia.
Qed.

Lemma hex_printable (n : N) : printable (Unicode.hex n) = true.
Proof.
  unfold Unicode.hex. apply hex_digit_printable.
  assert (n mod 16 < 16)%N by (apply N.mod_lt; discriminate). lia.
Qed.

Lemma unicode_u_escape_printable (n : N) :
  all_printable (Unicode.u_escape n) = true.
Proof.
  unfold Unicode.u_escape. cbn [append all_printable].
  rewrite !hex_printable. reflexivity.
Qed.

Lemma unicode_escape_code_point_printable (n : N) :
  all_printable (Unicode.escape_code_point n) = true.
Proof.
  unfold Unicode.escape_code_point.
  repeat match goal with
         | |- context [if (n =? ?k)%N then _ else _] =>
             destruct (n =? k)%N; [reflexivity|]
         end.
  destruct ((32 <=? n) && (n <=? 126))%N eqn:Hr.
  - apply andb_true_iff in Hr. destruct Hr as [H1 H2].
    apply N.leb_le in H1, H2.
    cbn [all_printable]. rewrite andb_true_r. unfold printable.
    assert (Hn : nat_of_ascii (ascii_of_N n) = N.to_nat n).
    { unfold nat_of_ascii. rewrite N_ascii_embedding; [reflexivity | lia]. }
    rewrite Hn. apply andb_true_iff.
    split; apply Nat.leb_le; lia.
  - destruct (n <? 65536)%N; [apply unicode_u_escape_printable|].
    cbv zeta. rewrite all_printable_app, !unicode_u_escape_printable.
    reflexivity.
Qed.

Lemma unicode_escape_printable (s : Unicode.ustr) :
  all_printable (Unicode.escape s) = true.
Proof.
  induction s as [|n s IH]; [reflexivity|].
  cbn [Unicode.escape].
  rewrite all_printable_app, unicode_escape_code_point_printable, IH.
  reflexivity.
Qed.

Lemma unicode_quote_printable (s : Unicode.ustr) :
  all_printable (Unicode.quote s) = true.
Proof.
  unfold Unicode.quote.
  rewrite !all_printable_app, unicode_escape_printable. reflexivity.
Qed.

Lemma unicode_dumps_printable (d : Unicode.udict) :
  all_printable (Unicode.dumps d) = true.
Proof.
  unfold Unicode.dumps. rewrite !all_printable_app.
  rewrite join_printable; [reflexivity | reflexivity |].
  apply Forall_forall. intros x Hin. apply in_map_iff in Hin.
  destruct Hin as ([k v] & <- & _).
  unfold Unicode.dump_item. cbn [fst snd].
  rewrite !all_printable_app, unicode_quote_printable.
  destruct v as [[]|t];
    [reflexivity | reflexivity | cbn [Unicode.dump_field];
                                 rewrite unicode_quote_printable; reflexivity].
Qed.

(** On code points below 256 the escape is the one of the model. *)
Lemma unicode_escape_code_point_ascii (c : ascii) :
  Unicode.escape_code_point (N_of_ascii c) = Json.escape_char c.
Proof. destruct c as [[] [] [] [] [] [] [] []]; vm_compute; reflexivity. Qed.

Lemma unicode_escape_code_points (s : string) :
  Unicode.escape (Unicode.code_points s) = Json.escape s.
Proof.
  induction s as [|c s IH]; [reflexivity|].
  cbn [Unicode.code_points Unicode.escape Json.escape].
  rewrite unicode_escape_code_point_ascii, IH. reflexivity.
Qed.

Lemma unicode_dumps_of_dict (d : dict) :
  Unicode.dumps (Unicode.of_dict d) = Json.dumps d.
Proof.
  unfold Unicode.dumps, Json.dumps, Unicode.of_dict. rewrite map_map.
  f_equal. f_equal. f_equal. apply map_ext. intros [k v].
  unfold Unicode.dump_item, Json.dump_item, Unicode.quote, Json.quote.
  cbn [fst snd]. rewrite unicode_escape_code_points.
  destruct v as [[]|t]; cbn [Unicode.of_field Unicode.dump_field Json.dump_field];
    [reflexivity | reflexivity |].
  unfold Unicode.quote, Json.quote. rewrite unicode_escape_code_points.
  reflexivity.
Qed.

(** Code points 233, 8364 and 128512 (the last one above 0xFFFF), a line
    break and a double quote. *)
Example unicode_escapes :
  Unicode.escape [233; 8364; 128512; 10; 34]%N
  = "\u00e9\u20ac\ud83d\ude00\n\" ++ PyStr.dquote.
Proof. vm_compute. reflexivity. Qed.

(** X10. What the script prints is made of printable ASCII characters
    only (code points 32 to 126), so the JSON object stands on one line.
    For every [sys.argv] and every environment of the model, whose strings
    have code points below 256, each printed line is printable.  On
    strings of any code points, [json.dumps] of a dictionary of booleans
    and strings, with its four-digit escapes and its surrogate pairs, is
    printable as well, and on the dictionaries of the model it gives the
    very line the model prints. *)
Theorem printed_lines_are_printable (env : environ) (argv : list string) :
  Forall (fun line => all_printable line = true)
         (st_stdout (snd (run_script env argv)))
  /\ (forall d : Unicode.udict, all_printable (Unicode.dumps d) = true)
  /\ (forall d : dict, Unicode.dumps (Unicode.of_dict d) = Json.dumps d).
Proof.
  split; [|split; [exact unicode_dumps_printable | exact unicode_dumps_of_dict]].
  unfold run_script. rewrite main_eq.
  destruct (List.length argv =? 2)%nat.
  - cbv zeta. destruct (path_exists env (nth 1 argv "")).
    + match goal with
      | |- context [transcribe_audio env ?p ?s] =>
          destruct (transcribe_audio_run env p s) as (d & st' & H & Hs & _)
      end.
      rewrite H. cbn [snd st_stdout]. rewrite Hs. cbn [st_stdout app].
      constructor; [apply dumps_printable | constructor].
    + cbn [snd st_stdout initial_state app].
      constructor; [apply dumps_printable | constructor].
  - cbn [snd st_stdout initial_state app].
    constructor; [apply dumps_printable | constructor].
Qed.

(** ** The text returned *)

Lemma lstrip_head (s : string) :
  PyStr.lstrip s = ""
  \/ exists c r, PyStr.lstrip s = String c r /\ PyStr.is_space c = false.
Proof.
  induction s as [|c s IH]; [left; reflexivity|].
  cbn [PyStr.lstrip]. destruct (PyStr.is_space c) eqn:Hc; [exact IH|].
  right. exists c, s. split; [reflexivity | exact Hc].
Qed.

Lemma rstrip_head (c : ascii) (s : string) :
  PyStr.is_space c = false ->
  exists r, PyStr.rstrip (String c s) = String c r.
Proof.
  intros Hc. cbn [PyStr.rstrip]. destruct (PyStr.rstrip s) as [|c2 r2].
  - rewrite Hc. exists "". reflexivity.
  - exists (String c2 r2). reflexivity.
Qed.

Lemma rstrip_idempotent (s : string) :
  PyStr.rstrip (PyStr.rstrip s) = PyStr.rstrip s.
Proof.
  induction s as [|c s IH]; [reflexivity|].
  cbn [PyStr.rstrip]. destruct (PyStr.rstrip s) as [|c2 r2] eqn:Hr.
  - destruct (PyStr.is_space c) eqn:Hc; [reflexivity|].
    cbn [PyStr.rstrip]. rewrite Hc. reflexivity.
  - change (PyStr.rstrip (String c (String c2 r2)))
      with (match PyStr.rstrip (String c2 r2) with
            | EmptyString =>
                if PyStr.is_space c then EmptyString else String c EmptyString
            | r => String c r
            end).
    rewrite IH. reflexivity.
Qed.

Lemma strip_is_stripped (s : string) :
  PyStr.lstrip (PyStr.strip s) = PyStr.strip s
  /\ PyStr.rstrip (PyStr.strip s) = PyStr.strip s.
Proof.
  unfold PyStr.strip. split; [|apply rstrip_idempotent].
  destruct (lstrip_head s) as [-> | (c & r & -> & Hc)]; [reflexivity|].
  destruct (rstrip_head c r Hc) as [r' ->].
  cbn [PyStr.lstrip]. rewrite Hc. reflexivity.
Qed.

(** X11. The text of a success result has no white space at either end:
    stripping it again, on the left or on the right, changes nothing. *)
Theorem success_text_is_stripped (env : environ) (audio_path : string)
    (st st' : pstate) (d : dict) (text : string) :
  transcribe_audio env audio_path st = (Ret d, st') ->
  lookup "success" d = Some (FBool true) ->
  lookup "text" d = Some (FStr text) ->
  PyStr.lstrip text = text /\ PyStr.rstrip text = text.
Proof.
  intros Hrun Hsucc Htext.
  destruct (transcribe_audio_run env audio_path st)
    as (d0 & st0 & H & _ & Hcase).
  rewrite H in Hrun. injection Hrun as -> ->.
  destruct Hcase as [Hd | (e & _ & ->)]; [|discriminate Hsucc].
  destruct Hd as [Hex | m wf Hex Hm Hw Hch | m wf r segs Hex Hm Hw Hch Hr Hseg];
    try discriminate Hsucc.
  cbn in Htext. injection Htext as <-. apply strip_is_stripped.
Qed.

Lemma success_text_is_stripped_witness :
  PyStr.lstrip "lights on lights" = "lights on lights"
  /\ PyStr.rstrip "lights on lights" = "lights on lights".
Proof.
  refine (success_text_is_stripped (Sample.sample_env Sample.Installed)
            "speech.wav" initial_state _ (success_result "lights on lights")
            "lights on lights" _ eq_refl eq_refl).
  vm_compute. reflexivity.
Defined.

(** ** Failures while the audio is fed *)

Section FeedFailure.

Variable env : environ.

(** A mono file with model and recognizer in place, on which feeding the
    chunks fails: the body raises, and none of the calls made so far is a
    close. *)
Lemma transcribe_body_feed_fails (audio_path : string) (st : pstate)
    (m : model env) (wf : wave_read) (r : recognizer env) :
  path_exists env (MODEL_PATH env) = true ->
  Model env (MODEL_PATH env) = inr m ->
  wave_open env audio_path = inr wf ->
  nchannels wf = 1 ->
  KaldiRecognizer env m (framerate wf) = inr r ->
  spec_feed env (SetWords env r true) (spec_chunks wf) = None ->
  exists e st' evs,
    transcribe_body env audio_path st = (Raise e, st')
    /\ st_log st' = (st_log st ++ evs)%list
    /\ forall p, ~ In (EvWaveClose p) evs.
Proof.
  intros Hex Hm Hw Hmono Hr Hfeed.
  rewrite transcribe_body_eq. cbv zeta.
  rewrite Hex, Hm, Hw, Hmono, Hr. cbn [Z.eqb Pos.eqb].
  match goal with
  | |- context [bind (read_loop _ _ _ _ _) _ ?s] => set (st0 := s)
  end.
  destruct (read_loop_feed env (List.length (frames wf))
              (S (List.length (frames wf))) wf (SetWords env r true) [] st0
              (le_n _) (Nat.lt_succ_diag_r _))
    as (st1 & _ & Hloop).
  destruct (read_loop_post env (S (List.length (frames wf))) wf
              (SetWords env r true) [] st0)
    as (_ & _ & evs & Hlog & Hcl & _).
  unfold spec_chunks in Hfeed. rewrite Hfeed in Hloop.
  destruct Hloop as [e Hloop]. rewrite Hloop in Hlog. cbn [snd] in Hlog.
  exists e, st1. eexists. split; [exact (bind_raise_eq _ _ _ _ _ Hloop)|].
  split.
  - rewrite Hlog. unfold st0. cbn [st_log]. rewrite <- !app_assoc. reflexivity.
  - intros p Hin. repeat (apply in_app_or in Hin; destruct Hin as [Hin|Hin]);
      try exact (Hcl p Hin);
      repeat (destruct Hin as [Hin|Hin]; [discriminate Hin|]);
      try destruct Hin.
Qed.

End FeedFailure.

(** X12. When feeding the chunks fails (an exception of
    [AcceptWaveform], of [Result], of [json.loads] on a partial result or
    of its [.get]), the call returns a failure result carrying that
    exception's text, and [wf.close()] is never called. *)
Theorem feeding_failure_makes_no_close_call (env : environ)
    (audio_path : string) (st : pstate) (m : model env) (wf : wave_read)
    (r : recognizer env) :
  path_exists env (MODEL_PATH env) = true ->
  Model env (MODEL_PATH env) = inr m ->
  wave_open env audio_path = inr wf ->
  nchannels wf = 1 ->
  KaldiRecognizer env m (framerate wf) = inr r ->
  spec_feed env (SetWords env r true) (spec_chunks wf) = None ->
  (exists e st',
      transcribe_body env audio_path st = (Raise e, st')
      /\ fst (transcribe_audio env audio_path st)
         = Ret (failure_result (exc_str e)))
  /\ forall p,
      ~ In (EvWaveClose p)
           (new_events st (snd (transcribe_audio env audio_path st))).
Proof.
  intros Hex Hm Hw Hch Hr Hfeed.
  destruct (transcribe_body_feed_fails env audio_path st m wf r
              Hex Hm Hw Hch Hr Hfeed) as (e & st' & evs & Hbody & Hlog & Hcl).
  unfold transcribe_audio, try_except. rewrite Hbody. split.
  - exists e, st'. split; reflexivity.
  - intros p. cbn [snd ret]. rewrite (new_events_app st st' evs Hlog).
    exact (Hcl p).
Qed.

Lemma feeding_failure_makes_no_close_call_witness :
  exists e st',
    transcribe_body (Sample.sample_env Sample.Installed) "broken.wav"
      initial_state = (Raise e, st')
    /\ fst (transcribe_audio (Sample.sample_env Sample.Installed)
              "broken.wav" initial_state)
       = Ret (failure_result (exc_str e)).
Proof.
  refine (proj1 (feeding_failure_makes_no_close_call
                   (Sample.sample_env Sample.Installed) "broken.wav"
                   initial_state tt
                   (mk_wave 1 2 16000 (repeat x01 8000 ++ repeat xff 10)%list)
                   [] eq_refl eq_refl eq_refl eq_refl eq_refl _)).
  vm_compute. reflexivity.
Defined.

(** ** The line for a missing file *)

Lemma escape_char_plain (c : ascii) :
  plain c = true -> Json.escape_char c = String c "".
Proof.
  intros H. destruct c as [[] [] [] [] [] [] [] []];
    vm_compute in H; try discriminate H; reflexivity.
Qed.

Lemma escape_plain (s : string) : all_plain s = true -> Json.escape s = s.
Proof.
  induction s as [|c s IH]; intros H; [reflexivity|].
  cbn [all_plain] in H. apply andb_prop in H. destruct H as [Hc Hs].
  cbn [Json.escape]. rewrite (escape_char_plain c Hc), (IH Hs). reflexivity.
Qed.

Lemma escape_app (a b : string) :
  Json.escape (a ++ b) = Json.escape a ++ Json.escape b.
Proof.
  induction a as [|c a IH]; [reflexivity|].
  cbn [append Json.escape]. rewrite IH.
  generalize (Json.escape_char c) as x. intros x.
  induction x as [|c' x IHx]; [reflexivity|].
  cbn [append]. rewrite IHx. reflexivity.
Qed.

Lemma append_assoc (a b c : string) : (a ++ b) ++ c = a ++ (b ++ c).
Proof.
  induction a as [|x a IH]; [reflexivity|]. cbn [append]. rewrite IH. reflexivity.
Qed.

(** X13. For a missing file whose path is made of plain characters
    (printable ASCII other than the double quote and the backslash), the
    line printed holds the path as it was given:
    [{"success": false, "error": "File not found: <path>"}]. *)
Theorem missing_file_line_verbatim (env : environ) (prog audio_file : string) :
  path_exists env audio_file = false ->
  all_plain audio_file = true ->
  run_script env [prog; audio_file]
  = (Some 1,
     mk_state [] [EvExists audio_file] [file_not_found_line audio_file]).
Proof.
  intros Hex Hplain. unfold run_script. rewrite main_eq.
  cbn [List.length Nat.eqb nth]. cbv zeta. rewrite Hex.
  cbn [exit_status initial_state st_open st_log st_stdout app].
  f_equal. f_equal. f_equal.
  unfold Json.dumps, failure_result, file_not_found_line.
  cbn [map PyStr.join].
  unfold Json.dump_item, Json.dump_field, Json.quote. cbn [fst snd].
  rewrite escape_app, (escape_plain audio_file Hplain).
  rewrite (escape_plain "success" eq_refl), (escape_plain "error" eq_refl),
    (escape_plain "File not found: " eq_refl).
  rewrite !append_assoc. reflexivity.
Qed.

Lemma missing_file_line_verbatim_witness :
  run_script (Sample.sample_env Sample.Installed) ["stt.py"; "/tmp/rec 1.wav"]
  = (Some 1,
     mk_state [] [EvExists "/tmp/rec 1.wav"]
       [file_not_found_line "/tmp/rec 1.wav"]).
Proof.
  refine (missing_file_line_verbatim (Sample.sample_env Sample.Installed)
            "stt.py" "/tmp/rec 1.wav" eq_refl eq_refl).
Defined.

(** * Object lifetimes *)

(** ** Computations that open and close no file *)

Lemma keeps_ret {A} (a : A) : Lifetime.keeps_files (ret a).
Proof. intros s. reflexivity. Qed.

Lemma keeps_raise {A} (e : pyexc) : Lifetime.keeps_files (@raise A e).
Proof. intros s. reflexivity. Qed.

Lemma keeps_log (ev : event) : Lifetime.keeps_files (log ev).
Proof. intros s. reflexivity. Qed.

Lemma keeps_lift {A} (r : pyexc + A) : Lifetime.keeps_files (lift r).
Proof. intros s. destruct r; reflexivity. Qed.

Lemma keeps_bind {A B} (m : M A) (k : A -> M B) :
  Lifetime.keeps_files m -> (forall a, Lifetime.keeps_files (k a)) ->
  Lifetime.keeps_files (bind m k).
Proof.
  intros Hm Hk s. unfold bind. specialize (Hm s).
  destruct (m s) as [[a|e|c|] s']; cbn [snd] in *; try exact Hm.
  rewrite (Hk a s'). exact Hm.
Qed.

Section KeepsFiles.

Variable env : environ.

Lemma keeps_os_path_exists (p : string) :
  Lifetime.keeps_files (os_path_exists env p).
Proof. apply keeps_bind; [apply keeps_log | intros; apply keeps_ret]. Qed.

Lemma keeps_new_Model (p : string) : Lifetime.keeps_files (new_Model env p).
Proof. apply keeps_bind; [apply keeps_log | intros; apply keeps_lift]. Qed.

Lemma keeps_new_KaldiRecognizer (m : model env) (rate : Z) :
  Lifetime.keeps_files (new_KaldiRecognizer env m rate).
Proof. apply keeps_bind; [apply keeps_log | intros; apply keeps_lift]. Qed.

Lemma keeps_rec_SetWords (r : recognizer env) (b : bool) :
  Lifetime.keeps_files (rec_SetWords env r b).
Proof. apply keeps_bind; [apply keeps_log | intros; apply keeps_ret]. Qed.

Lemma keeps_rec_FinalResult (r : recognizer env) :
  Lifetime.keeps_files (rec_FinalResult env r).
Proof. apply keeps_bind; [apply keeps_log | intros; apply keeps_lift]. Qed.

Lemma keeps_py_get (v : jsonval) (k : string) :
  Lifetime.keeps_files (py_get v k).
Proof. intros s. destruct v; reflexivity. Qed.

Lemma keeps_py_getitem (v : jsonval) (k : string) :
  Lifetime.keeps_files (py_getitem v k).
Proof.
  intros s. destruct v; try reflexivity.
  cbn [py_getitem]. destruct (lookup k d); reflexivity.
Qed.

Lemma keeps_str_join (sep : string) (l : list jsonval) :
  Lifetime.keeps_files (str_join sep l).
Proof.
  intros s. unfold str_join. destruct (all_str 0 l) as [[i v]|ss]; reflexivity.
Qed.

Lemma keeps_read_loop (fuel : nat) (wf : wave_read) (rec : recognizer env)
    (acc : list jsonval) :
  Lifetime.keeps_files (read_loop env fuel wf rec acc).
Proof.
  intros s. destruct (read_loop_post env fuel wf rec acc s) as [H _]. exact H.
Qed.

End KeepsFiles.

(** ** The run with its frame does to the process what the script does *)

Lemma simulates_ret {A} (a : A) : Lifetime.simulates (Lifetime.lret a) (ret a).
Proof. intros ls. split; reflexivity. Qed.

Lemma simulates_in_proc {A} (m : M A) : Lifetime.simulates (Lifetime.in_proc m) m.
Proof.
  intros ls. unfold Lifetime.in_proc.
  destruct (m (Lifetime.l_proc ls)) as [o s']. split; reflexivity.
Qed.

Lemma simulates_bind {A B} (lm : Lifetime.LM A) (m : M A)
    (lk : A -> Lifetime.LM B) (k : A -> M B) :
  Lifetime.simulates lm m -> (forall a, Lifetime.simulates (lk a) (k a)) ->
  Lifetime.simulates (Lifetime.lbind lm lk) (bind m k).
Proof.
  intros Hm Hk ls. unfold Lifetime.lbind, bind.
  destruct (Hm ls) as [Ho Hs].
  destruct (lm ls) as [o ls']. destruct (m (Lifetime.l_proc ls)) as [o' s'].
  cbn [fst snd] in Ho, Hs. subst o' s'.
  destruct o as [a|e|c|]; try (split; reflexivity).
  apply Hk.
Qed.

(** A step that only updates the frame or the handles, after [lm]. *)
Lemma simulates_note {A} (lm : Lifetime.LM A) (m : M A)
    (g : A -> Lifetime.LM A) :
  Lifetime.simulates lm m ->
  (forall a, Lifetime.simulates (g a) (ret a)) ->
  Lifetime.simulates (Lifetime.lbind lm g) m.
Proof.
  intros Hm Hg ls. unfold Lifetime.lbind.
  destruct (Hm ls) as [Ho Hs].
  destruct (lm ls) as [o ls']. cbn [fst snd] in Ho, Hs.
  destruct o as [a|e|c|]; try (split; [exact Ho | exact Hs]).
  destruct (Hg a ls') as [Ho' Hs']. cbn [ret fst snd] in Ho', Hs'.
  split; [rewrite Ho'; exact Ho | rewrite Hs'; exact Hs].
Qed.

Lemma simulates_try {A} (lm : Lifetime.LM A) (m : M A)
    (lh : pyexc -> Lifetime.LM A) (h : pyexc -> M A) :
  Lifetime.simulates lm m -> (forall e, Lifetime.simulates (lh e) (h e)) ->
  Lifetime.simulates (Lifetime.ltry_except lm lh) (try_except m h).
Proof.
  intros Hm Hh ls. unfold Lifetime.ltry_except, try_except.
  destruct (Hm ls) as [Ho Hs].
  destruct (lm ls) as [o ls']. destruct (m (Lifetime.l_proc ls)) as [o' s'].
  cbn [fst snd] in Ho, Hs. subst o' s'.
  destruct o as [a|e|c|]; try (split; reflexivity).
  apply Hh.
Qed.

Section Simulation.

Variable env : environ.

Lemma simulates_assign_model (p : string) :
  Lifetime.simulates (Lifetime.assign_model env p) (new_Model env p).
Proof.
  apply simulates_note; [apply simulates_in_proc|].
  intros m ls. split; reflexivity.
Qed.

Lemma simulates_assign_wf (p : string) :
  Lifetime.simulates (Lifetime.assign_wf env p) (wave_open_rb env p).
Proof.
  apply simulates_note; [apply simulates_in_proc|].
  intros wf ls. split; reflexivity.
Qed.

Lemma simulates_assign_rec (m : model env) (rate : Z) :
  Lifetime.simulates (Lifetime.assign_rec env m rate)
                     (new_KaldiRecognizer env m rate).
Proof.
  apply simulates_note; [apply simulates_in_proc|].
  intros r ls. split; reflexivity.
Qed.

Lemma simulates_close_wf (p : string) :
  Lifetime.simulates (Lifetime.close_wf p) (wave_close p).
Proof.
  apply (simulates_note (Lifetime.in_proc (wave_close p)) (wave_close p)
           (fun _ => _)); [apply simulates_in_proc|].
  intros [] ls. split; reflexivity.
Qed.

Lemma simulates_finish (audio_path : string) (rec : recognizer env)
    (results : list jsonval) :
  Lifetime.simulates (Lifetime.transcribe_finish env audio_path rec results)
                     (transcribe_finish env audio_path rec results).
Proof.
  unfold Lifetime.transcribe_finish, transcribe_finish.
  apply simulates_bind; [apply simulates_in_proc|]. intros [s rec'].
  apply simulates_bind; [apply simulates_in_proc|]. intros final.
  apply simulates_bind; [apply simulates_in_proc|]. intros t.
  apply simulates_bind.
  { destruct (truthy t); [|apply simulates_ret].
    apply simulates_bind; [apply simulates_in_proc|]. intros x.
    apply simulates_ret. }
  intros results'.
  apply simulates_bind; [apply simulates_close_wf|]. intros _.
  apply simulates_bind; [apply simulates_in_proc|]. intros text.
  apply simulates_ret.
Qed.

Lemma simulates_body (audio_path : string) :
  Lifetime.simulates (Lifetime.transcribe_body env audio_path)
                     (transcribe_body env audio_path).
Proof.
  unfold Lifetime.transcribe_body, transcribe_body.
  apply simulates_bind; [apply simulates_in_proc|]. intros found.
  destruct (negb found); [apply simulates_ret|].
  apply simulates_bind; [apply simulates_assign_model|]. intros m.
  apply simulates_bind; [apply simulates_assign_wf|]. intros wf.
  destruct (negb (nchannels wf =? 1)); [apply simulates_ret|].
  apply simulates_bind; [apply simulates_assign_rec|]. intros r.
  apply simulates_bind; [apply simulates_in_proc|]. intros r'.
  apply simulates_bind; [apply simulates_in_proc|]. intros [[wf' r''] results].
  apply simulates_finish.
Qed.

(** Up to its [return], the function with its frame returns what
    [transcribe_audio] returns and leaves the process as it does. *)
Lemma at_return_simulates (audio_path : string) (w : pstate * list Lifetime.native) :
  fst (Lifetime.at_return env audio_path w)
  = fst (transcribe_audio env audio_path (fst w))
  /\ Lifetime.l_proc (snd (Lifetime.at_return env audio_path w))
     = snd (transcribe_audio env audio_path (fst w)).
Proof.
  unfold Lifetime.at_return, transcribe_audio.
  apply (simulates_try _ _ _ _ (simulates_body audio_path)
           (fun e => simulates_ret _)).
Qed.

End Simulation.

(** ** What is held, statement by statement *)

Lemma triple_ret {A} (P : Lifetime.lstate -> Prop) (a : A)
    (Q : A -> Lifetime.lstate -> Prop) (R : Lifetime.lstate -> Prop) :
  (forall ls, P ls -> Q a ls) -> Lifetime.triple P (Lifetime.lret a) Q R.
Proof. intros H ls HP. exact (H ls HP). Qed.

Lemma triple_bind {A B} (P : Lifetime.lstate -> Prop) (m : Lifetime.LM A)
    (Q : A -> Lifetime.lstate -> Prop) (k : A -> Lifetime.LM B)
    (Q' : B -> Lifetime.lstate -> Prop) (R : Lifetime.lstate -> Prop) :
  Lifetime.triple P m Q R -> (forall a, Lifetime.triple (Q a) (k a) Q' R) ->
  Lifetime.triple P (Lifetime.lbind m k) Q' R.
Proof.
  intros Hm Hk ls HP. unfold Lifetime.lbind. specialize (Hm ls HP).
  destruct (m ls) as [[a|e|c|] ls']; try exact Hm.
  exact (Hk a ls' Hm).
Qed.

(** A computation of the script that opens and closes no file leaves
    what is held as it is. *)
Lemma triple_in_proc {A} (m : M A)
    (h : list string * list Lifetime.native * Lifetime.frame)
    (R : Lifetime.lstate -> Prop) :
  Lifetime.keeps_files m ->
  (forall ls, Lifetime.held ls = h -> R ls) ->
  Lifetime.triple (fun ls => Lifetime.held ls = h) (Lifetime.in_proc m)
                  (fun _ ls => Lifetime.held ls = h) R.
Proof.
  intros Hm HR ls HP. unfold Lifetime.in_proc.
  specialize (Hm (Lifetime.l_proc ls)).
  destruct (m (Lifetime.l_proc ls)) as [o s']. cbn [snd] in Hm.
  assert (Hh : Lifetime.held
                 (Lifetime.mk_lstate s' (Lifetime.l_natives ls)
                    (Lifetime.l_frame ls)) = h).
  { rewrite <- HP. unfold Lifetime.held. cbn. rewrite Hm. reflexivity. }
  destruct o as [a|e|c|]; [exact Hh | apply HR, Hh ..].
Qed.

Section Accounting.

Variable env : environ.
Variable audio_path : string.

(** What was open and alive before the call. *)
Variable files : list string.
Variable natives : list Lifetime.native.

Let mp : string := MODEL_PATH env.

(** The four stages of the frame. *)
Let h0 := (files, natives, Lifetime.no_locals).
Let h1 := (files, Lifetime.ModelHandle mp :: natives,
           Lifetime.mk_frame (Some (Lifetime.ModelHandle mp)) None None).
Let h2 := (audio_path :: files, Lifetime.ModelHandle mp :: natives,
           Lifetime.mk_frame (Some (Lifetime.ModelHandle mp))
             (Some (audio_path, false)) None).
Let h3 (rate : Z) :=
  (audio_path :: files,
   Lifetime.RecognizerHandle rate :: Lifetime.ModelHandle mp :: natives,
   Lifetime.mk_frame (Some (Lifetime.ModelHandle mp))
     (Some (audio_path, false)) (Some (Lifetime.RecognizerHandle rate))).
Let h4 (rate : Z) :=
  (files,
   Lifetime.RecognizerHandle rate :: Lifetime.ModelHandle mp :: natives,
   Lifetime.mk_frame (Some (Lifetime.ModelHandle mp))
     (Some (audio_path, true)) (Some (Lifetime.RecognizerHandle rate))).

Let good := Lifetime.settled files natives.

Ltac settle :=
  let ls := fresh "ls" in
  let H := fresh "H" in
  intros ls H; destruct ls as [[o l so] nats fr];
  unfold Lifetime.held in H; cbn in H; injection H as -> -> ->;
  unfold good, Lifetime.settled, Lifetime.frame_dies, Lifetime.finalize_wf,
    Lifetime.finalize_native;
  cbn -[remove_first];
  rewrite ?remove_first_head, ?Z.eqb_refl, ?String.eqb_refl;
  split; reflexivity.

Lemma good_h0 : forall ls, Lifetime.held ls = h0 -> good ls.
Proof. settle. Qed.

Lemma good_h1 : forall ls, Lifetime.held ls = h1 -> good ls.
Proof. settle. Qed.

Lemma good_h2 : forall ls, Lifetime.held ls = h2 -> good ls.
Proof. settle. Qed.

Lemma good_h3 (rate : Z) : forall ls, Lifetime.held ls = h3 rate -> good ls.
Proof. settle. Qed.

Lemma good_h4 (rate : Z) : forall ls, Lifetime.held ls = h4 rate -> good ls.
Proof. settle. Qed.

Lemma triple_assign_model :
  Lifetime.triple (fun ls => Lifetime.held ls = h0)
    (Lifetime.assign_model env mp)
    (fun _ ls => Lifetime.held ls = h1) good.
Proof.
  apply (triple_bind _ _ (fun _ ls => Lifetime.held ls = h0)).
  - apply triple_in_proc; [apply keeps_new_Model | exact good_h0].
  - intros m ls H. destruct ls as [[o l so] nats fr].
    unfold Lifetime.held in H. cbn in H. injection H as -> -> ->. reflexivity.
Qed.

Lemma triple_assign_wf :
  Lifetime.triple (fun ls => Lifetime.held ls = h1)
    (Lifetime.assign_wf env audio_path)
    (fun _ ls => Lifetime.held ls = h2) good.
Proof.
  intros ls H. destruct ls as [[o l so] nats fr].
  unfold Lifetime.held in H. cbn in H. injection H as -> -> ->.
  unfold Lifetime.assign_wf, Lifetime.lbind, Lifetime.in_proc, wave_open_rb.
  cbn [Lifetime.l_proc]. rewrite bind_log.
  destruct (wave_open env audio_path) as [e|wf].
  - rewrite bind_lift_inl. apply good_h1. reflexivity.
  - rewrite bind_lift_inr. reflexivity.
Qed.

Lemma triple_assign_rec (m : model env) (rate : Z) :
  Lifetime.triple (fun ls => Lifetime.held ls = h2)
    (Lifetime.assign_rec env m rate)
    (fun _ ls => Lifetime.held ls = h3 rate) good.
Proof.
  apply (triple_bind _ _ (fun _ ls => Lifetime.held ls = h2)).
  - apply triple_in_proc; [apply keeps_new_KaldiRecognizer | exact good_h2].
  - intros r ls H. destruct ls as [[o l so] nats fr].
    unfold Lifetime.held in H. cbn in H. injection H as -> -> ->. reflexivity.
Qed.

Lemma triple_close_wf (rate : Z) :
  Lifetime.triple (fun ls => Lifetime.held ls = h3 rate)
    (Lifetime.close_wf audio_path)
    (fun _ ls => Lifetime.held ls = h4 rate) good.
Proof.
  intros ls H. destruct ls as [[o l so] nats fr].
  unfold Lifetime.held in H. cbn in H. injection H as -> -> ->.
  unfold Lifetime.close_wf, Lifetime.lbind, Lifetime.in_proc, wave_close.
  cbn [Lifetime.l_proc]. rewrite bind_log.
  cbn [st_open st_log st_stdout]. unfold Lifetime.held. cbn.
  rewrite String.eqb_refl. reflexivity.
Qed.

Lemma triple_finish (rate : Z) (rec : recognizer env) (results : list jsonval) :
  Lifetime.triple (fun ls => Lifetime.held ls = h3 rate)
    (Lifetime.transcribe_finish env audio_path rec results)
    (fun _ => good) good.
Proof.
  unfold Lifetime.transcribe_finish.
  apply (triple_bind _ _ (fun _ ls => Lifetime.held ls = h3 rate)).
  { apply triple_in_proc; [apply keeps_rec_FinalResult | exact (good_h3 rate)]. }
  intros [s rec'].
  apply (triple_bind _ _ (fun _ ls => Lifetime.held ls = h3 rate)).
  { apply triple_in_proc; [apply keeps_lift | exact (good_h3 rate)]. }
  intros final.
  apply (triple_bind _ _ (fun _ ls => Lifetime.held ls = h3 rate)).
  { apply triple_in_proc; [apply keeps_py_get | exact (good_h3 rate)]. }
  intros t.
  apply (triple_bind _ _ (fun _ ls => Lifetime.held ls = h3 rate)).
  { destruct (truthy t).
    - apply (triple_bind _ _ (fun _ ls => Lifetime.held ls = h3 rate)).
      + apply triple_in_proc; [apply keeps_py_getitem | exact (good_h3 rate)].
      + intros x. apply triple_ret. intros ls H. exact H.
    - apply triple_ret. intros ls H. exact H. }
  intros results'.
  apply (triple_bind _ _ (fun _ ls => Lifetime.held ls = h4 rate)).
  { apply triple_close_wf. }
  intros _.
  apply (triple_bind _ _ (fun _ ls => Lifetime.held ls = h4 rate)).
  { apply triple_in_proc; [apply keeps_str_join | exact (good_h4 rate)]. }
  intros text. apply triple_ret. exact (good_h4 rate).
Qed.

(** However the body ends, the death of the frame leaves what was open
    and alive before the call. *)
Lemma triple_body :
  Lifetime.triple (fun ls => Lifetime.held ls = h0)
    (Lifetime.transcribe_body env audio_path)
    (fun _ => good) good.
Proof.
  unfold Lifetime.transcribe_body. fold mp.
  apply (triple_bind _ _ (fun _ ls => Lifetime.held ls = h0)).
  { apply triple_in_proc; [apply keeps_os_path_exists | exact good_h0]. }
  intros found. destruct (negb found); [apply triple_ret; exact good_h0|].
  apply (triple_bind _ _ (fun _ ls => Lifetime.held ls = h1)).
  { apply triple_assign_model. }
  intros m.
  apply (triple_bind _ _ (fun _ ls => Lifetime.held ls = h2)).
  { apply triple_assign_wf. }
  intros wf.
  destruct (negb (nchannels wf =? 1)); [apply triple_ret; exact good_h2|].
  apply (triple_bind _ _ (fun _ ls => Lifetime.held ls = h3 (framerate wf))).
  { apply triple_assign_rec. }
  intros r.
  apply (triple_bind _ _ (fun _ ls => Lifetime.held ls = h3 (framerate wf))).
  { apply triple_in_proc;
      [apply keeps_rec_SetWords | exact (good_h3 (framerate wf))]. }
  intros r'.
  apply (triple_bind _ _ (fun _ ls => Lifetime.held ls = h3 (framerate wf))).
  { apply triple_in_proc;
      [apply keeps_read_loop | exact (good_h3 (framerate wf))]. }
  intros [[wf' r''] results]. apply triple_finish.
Qed.

Lemma at_return_settled (b : pstate) :
  st_open b = files ->
  good (snd (Lifetime.at_return env audio_path (b, natives))).
Proof.
  intros Hb. unfold Lifetime.at_return, Lifetime.ltry_except.
  pose proof (triple_body (Lifetime.mk_lstate b natives Lifetime.no_locals)) as H.
  cbn [fst snd].
  destruct (Lifetime.transcribe_body env audio_path
              (Lifetime.mk_lstate b natives Lifetime.no_locals))
    as [[d|e|c|] ls']; cbn [snd Lifetime.lret];
    apply H; unfold Lifetime.held; cbn; rewrite Hb; reflexivity.
Qed.

End Accounting.

Lemma frame_dies_keeps_log (ls : Lifetime.lstate) :
  st_log (fst (Lifetime.frame_dies ls)) = st_log (Lifetime.l_proc ls)
  /\ st_stdout (fst (Lifetime.frame_dies ls)) = st_stdout (Lifetime.l_proc ls).
Proof.
  unfold Lifetime.frame_dies, Lifetime.finalize_wf, Lifetime.finalize_native.
  destruct ls as [b nats [fm [[p []]|] fr]]; destruct fm, fr; split; reflexivity.
Qed.

(** With the model installed and a stereo file: at the [return] the file
    is open and the model's handle alive; once the call has returned,
    neither is. *)
Example stereo_released_with_frame :
  let env := Sample.sample_env Sample.Installed in
  let at_ret := snd (Lifetime.at_return env "stereo.wav" (initial_state, [])) in
  let after :=
    snd (Lifetime.transcribe_audio env "stereo.wav" (initial_state, [])) in
  st_open (Lifetime.l_proc at_ret) = ["stereo.wav"]
  /\ Lifetime.l_natives at_ret = [Lifetime.ModelHandle (MODEL_PATH env)]
  /\ st_open (fst after) = []
  /\ snd after = [].
Proof. cbv zeta. repeat split; vm_compute; reflexivity. Qed.

(** The same after an exception raised while the audio is fed: the file
    and both handles are held when the [except] clause returns, and
    released with the frame. *)
Example broken_released_with_frame :
  let env := Sample.sample_env Sample.Installed in
  let at_ret := snd (Lifetime.at_return env "broken.wav" (initial_state, [])) in
  let after :=
    snd (Lifetime.transcribe_audio env "broken.wav" (initial_state, [])) in
  st_open (Lifetime.l_proc at_ret) = ["broken.wav"]
  /\ List.length (Lifetime.l_natives at_ret) = 2%nat
  /\ st_open (fst after) = []
  /\ snd after = [].
Proof. cbv zeta. repeat split; vm_compute; reflexivity. Qed.

(** On the success path [wf.close()] has closed the file before the
    [return]; the handles go with the frame. *)
Example speech_closed_before_return :
  let env := Sample.sample_env Sample.Installed in
  let at_ret := snd (Lifetime.at_return env "speech.wav" (initial_state, [])) in
  let after :=
    snd (Lifetime.transcribe_audio env "speech.wav" (initial_state, [])) in
  st_open (Lifetime.l_proc at_ret) = []
  /\ Lifetime.f_wf (Lifetime.l_frame at_ret) = Some ("speech.wav", true)
  /\ List.length (Lifetime.l_natives at_ret) = 2%nat
  /\ st_open (fst after) = []
  /\ snd after = [].
Proof. cbv zeta. repeat split; vm_compute; reflexivity. Qed.

